(** * Incremental Spotify -> Yandex Music like synchronisation

    A shallow embedding of [sync_spotify_to_yandex.py] and the properties
    of its synchronisation engine: timestamp parsing and formatting, the
    persisted state, the change detector, the matcher, the retry loops and
    the reconciliation loop of [main]. *)

From Stdlib Require Import ZArith Ascii String.
From stdpp Require Import gmap strings list.

Open Scope string_scope.
Open Scope list_scope.

Set Warnings "-register-all,-abstract-large-number".

(** ** Strings *)

(** [s.endswith(suffix)] *)
Definition endswith (s suffix : string) : bool :=
  (String.length suffix <=? String.length s)%nat
  && String.eqb
       (String.substring (String.length s - String.length suffix) (String.length suffix) s)
       suffix.

(** [s[:-1]] *)
Definition drop_last (s : string) : string :=
  String.substring 0 (String.length s - 1) s.

(** [s.replace(old, new)] for a non-empty [old]: every occurrence, scanning
    from the left, occurrences do not overlap.  The recursion is on the
    characters still to scan; [skip] counts the characters of an occurrence
    that was just replaced. *)
Fixpoint replace_from (old new : string) (skip : nat) (s : string) : string :=
  match s with
  | EmptyString => EmptyString
  | String c rest =>
      match skip with
      | S k => replace_from old new k rest
      | O =>
          if String.prefix old s
          then new +:+ replace_from old new (String.length old - 1) rest
          else String c (replace_from old new 0 rest)
      end
  end.

Definition str_replace (s old new : string) : string := replace_from old new 0 s.

(** [", ".join(parts)] *)
Fixpoint join (sep : string) (parts : list string) : string :=
  match parts with
  | [] => ""
  | [p] => p
  | p :: rest => p +:+ sep +:+ join sep rest
  end.

(** ** Timestamps *)

(** A [datetime] whose [tzinfo] is [timezone.utc]: every value that
    [parse_spotify_ts] returns went through [.astimezone(timezone.utc)]. *)
Record datetime := mk_datetime {
  dt_year : Z;
  dt_month : Z;
  dt_day : Z;
  dt_hour : Z;
  dt_minute : Z;
  dt_second : Z;
  dt_microsecond : Z
}.

(** Aware datetimes with the same [tzinfo] compare as the tuples of their
    fields. *)
Definition dt_tuple (d : datetime) : list Z :=
  [dt_year d; dt_month d; dt_day d; dt_hour d; dt_minute d; dt_second d;
   dt_microsecond d].

Fixpoint lex_compare (a b : list Z) : comparison :=
  match a, b with
  | [], [] => Eq
  | [], _ :: _ => Lt
  | _ :: _, [] => Gt
  | x :: a', y :: b' =>
      match Z.compare x y with
      | Eq => lex_compare a' b'
      | c => c
      end
  end.

Definition dt_compare (a b : datetime) : comparison :=
  lex_compare (dt_tuple a) (dt_tuple b).

(** [a <= b] and [a > b] on datetimes *)
Definition dt_leb (a b : datetime) : bool :=
  match dt_compare a b with Gt => false | _ => true end.

Definition dt_gtb (a b : datetime) : bool :=
  match dt_compare a b with Gt => true | _ => false end.

(** The calendar of the [datetime] module. *)
Definition is_leap (y : Z) : bool :=
  (y mod 4 =? 0)%Z && (negb (y mod 100 =? 0)%Z || (y mod 400 =? 0)%Z).

Definition days_in_month (y m : Z) : Z :=
  match m with
  | 1 | 3 | 5 | 7 | 8 | 10 | 12 => 31
  | 4 | 6 | 9 | 11 => 30
  | 2 => if is_leap y then 29 else 28
  | _ => 0
  end%Z.

(** The range checks of the [datetime] constructor ([MINYEAR] = 1,
    [MAXYEAR] = 9999); a field out of range is a [ValueError]. *)
Definition check_date_fields (y m d : Z) : bool :=
  (1 <=? y)%Z && (y <=? 9999)%Z && (1 <=? m)%Z && (m <=? 12)%Z
  && (1 <=? d)%Z && (d <=? days_in_month y m)%Z.

Definition check_time_fields (h mi s : Z) : bool :=
  (0 <=? h)%Z && (h <=? 23)%Z && (0 <=? mi)%Z && (mi <=? 59)%Z
  && (0 <=? s)%Z && (s <=? 59)%Z.

(** Decimal digits. *)
Definition ord (c : ascii) : Z := Z.of_N (N_of_ascii c).

Definition chr (n : Z) : ascii := ascii_of_N (Z.to_N n).

Definition digit_val (c : ascii) : option Z :=
  if (48 <=? ord c)%Z && (ord c <=? 57)%Z then Some (ord c - 48)%Z else None.

Definition digit_char (d : Z) : ascii := chr (48 + d).

(** Reads exactly [n] decimal digits. *)
Fixpoint parse_digits (n : nat) (acc : Z) (s : string) : option (Z * string) :=
  match n with
  | O => Some (acc, s)
  | S n' =>
      match s with
      | String c rest =>
          match digit_val c with
          | Some d => parse_digits n' (10 * acc + d)%Z rest
          | None => None
          end
      | EmptyString => None
      end
  end.

Definition expect (c : ascii) (s : string) : option string :=
  match s with
  | String c' rest => if Ascii.eqb c c' then Some rest else None
  | EmptyString => None
  end.

(** [datetime.fromisoformat] on the second-precision UTC form
    [YYYY-MM-DDTHH:MM:SS+00:00]: the fields, when they pass the
    constructor's range checks.  The offset [+00:00] yields the
    [timezone.utc] singleton, for which [.astimezone(timezone.utc)] returns
    the datetime itself. *)
Definition parse_iso_utc (s : string) : option datetime :=
  '(y, s) ← parse_digits 4 0 s;
  s ← expect "-" s;
  '(m, s) ← parse_digits 2 0 s;
  s ← expect "-" s;
  '(d, s) ← parse_digits 2 0 s;
  s ← expect "T" s;
  '(h, s) ← parse_digits 2 0 s;
  s ← expect ":" s;
  '(mi, s) ← parse_digits 2 0 s;
  s ← expect ":" s;
  '(sec, s) ← parse_digits 2 0 s;
  if String.eqb s "+00:00" && check_date_fields y m d && check_time_fields h mi sec
  then Some (mk_datetime y m d h mi sec 0)
  else None.

(** [%02d] and [%04d] on a field of a datetime (which is within the
    constructor's ranges). *)
Definition fmt02 (n : Z) : string :=
  String (digit_char (n / 10 mod 10)) (String (digit_char (n mod 10)) "").

Definition fmt04 (n : Z) : string :=
  String (digit_char (n / 1000 mod 10))
    (String (digit_char (n / 100 mod 10)) (fmt02 n)).

(** [dt.isoformat()] of a UTC datetime whose microsecond is 0. *)
Definition isoformat (d : datetime) : string :=
  fmt04 (dt_year d) +:+ "-" +:+ fmt02 (dt_month d) +:+ "-" +:+ fmt02 (dt_day d)
  +:+ "T" +:+ fmt02 (dt_hour d) +:+ ":" +:+ fmt02 (dt_minute d) +:+ ":"
  +:+ fmt02 (dt_second d) +:+ "+00:00".

(** [dt.replace(microsecond=0)] *)
Definition replace_microsecond0 (d : datetime) : datetime :=
  mk_datetime (dt_year d) (dt_month d) (dt_day d) (dt_hour d) (dt_minute d)
    (dt_second d) 0.

(** The strings of the form [YYYY-MM-DDTHH:MM:SSZ] that denote a datetime:
    what the source catalog emits and what the state file stores. *)
Definition is_digit (c : ascii) : bool := (48 <=? ord c)%Z && (ord c <=? 57)%Z.

Definition digit2 (a b : ascii) : Z := (10 * (ord a - 48) + (ord b - 48))%Z.

Definition is_spotify_ts (s : string) : bool :=
  match list_ascii_of_string s with
  | [y1; y2; y3; y4; c1; m1; m2; c2; d1; d2; t; h1; h2; c3; n1; n2; c4; s1; s2; z] =>
      forallb is_digit [y1; y2; y3; y4; m1; m2; d1; d2; h1; h2; n1; n2; s1; s2]
      && Ascii.eqb c1 "-" && Ascii.eqb c2 "-" && Ascii.eqb t "T"
      && Ascii.eqb c3 ":" && Ascii.eqb c4 ":" && Ascii.eqb z "Z"
      && check_date_fields (100 * digit2 y1 y2 + digit2 y3 y4) (digit2 m1 m2)
           (digit2 d1 d2)
      && check_time_fields (digit2 h1 h2) (digit2 n1 n2) (digit2 s1 s2)
  | _ => false
  end.

(** ** Values of the state file *)

(** What [json.load] returns.  Of a float the script can only see whether
    it is zero. *)
Inductive json :=
| JNull
| JBool (b : bool)
| JInt (n : Z)
| JFloat (nonzero : bool)
| JStr (s : string)
| JArr (items : list json)
| JObj (fields : list (string * json)).

(** A Python [dict] with string keys, in insertion order. *)
Definition dict := list (string * json).

Fixpoint dict_get (d : dict) (k : string) : option json :=
  match d with
  | [] => None
  | (k', v) :: rest => if String.eqb k k' then Some v else dict_get rest k
  end.

(** [d[k] = v] *)
Fixpoint dict_set (d : dict) (k : string) (v : json) : dict :=
  match d with
  | [] => [(k, v)]
  | (k', v') :: rest =>
      if String.eqb k k' then (k, v) :: rest else (k', v') :: dict_set rest k v
  end.

(** [d.setdefault(k, v)] *)
Definition dict_setdefault (d : dict) (k : string) (v : json) : dict :=
  match dict_get d k with
  | Some _ => d
  | None => dict_set d k v
  end.

Definition STATE_DEFAULT : dict :=
  [("processed_spotify_ids", JArr []); ("last_spotify_added_at", JNull)].

(** [bool(v)] *)
Definition truthy (v : json) : bool :=
  match v with
  | JNull => false
  | JBool b => b
  | JInt n => negb (n =? 0)%Z
  | JFloat nonzero => nonzero
  | JStr s => negb (String.eqb s "")
  | JArr l => match l with [] => false | _ => true end
  | JObj l => match l with [] => false | _ => true end
  end.

(** The string entries of a list value. *)
Definition str_items (v : json) : list string :=
  match v with
  | JArr l => omap (fun x => match x with JStr s => Some s | _ => None end) l
  | _ => []
  end.

(** ** Exceptions, effects and the outside world *)

(** The exception classes the script distinguishes; all of them derive from
    [Exception]. *)
Inductive exn :=
| TimedOutError
| UnauthorizedError
| RuntimeError
| SpotifyOauthError
| AttributeError
| TypeError
| OtherError (name : string).

#[global] Instance exn_eq_dec : EqDecision exn.
Proof. solve_decision. Defined.

(** How a call ends: it returns a value or raises. *)
Inductive answer (A : Type) :=
| Returns (a : A)
| Raises (e : exn).
Arguments Returns {A} a.
Arguments Raises {A} e.

(** How a computation of the script ends: with a value, with an exception,
    or not within the iterations allowed to its [while True] loop. *)
Inductive result (A : Type) :=
| Ok (a : A)
| Raise (e : exn)
| OutOfFuel.
Arguments Ok {A} a.
Arguments Raise {A} e.
Arguments OutOfFuel {A}.

Definition result_of {A} (a : answer A) : result A :=
  match a with
  | Returns v => Ok v
  | Raises e => Raise e
  end.

(** The state file: missing, not loadable ([open] or [json.load] raises), or
    holding a JSON value. *)
Inductive file_content :=
| FileAbsent
| FileUnreadable
| FileJson (v : json).

(** Calls to the two catalogs, and sleeps, in the order they happen. *)
Inductive event :=
| EvSavedTracks (limit offset : nat)
| EvLikesTracks
| EvSearch (text : string)
| EvLikesAdd (like_id : string)
| EvSleep (seconds : nat).

(** The world a run acts on; [w_trace] has the latest event first. *)
Record World := mk_world {
  w_file : file_content;
  w_trace : list event
}.

Definition M (A : Type) : Type := World -> result A * World.

Definition ret {A} (a : A) : M A := fun w => (Ok a, w).

Definition raise {A} (e : exn) : M A := fun w => (Raise e, w).

Definition bind {A B} (m : M A) (k : A -> M B) : M B :=
  fun w =>
    match m w with
    | (Ok a, w') => k a w'
    | (Raise e, w') => (Raise e, w')
    | (OutOfFuel, w') => (OutOfFuel, w')
    end.

Notation "'let*' x ':=' m 'in' k" := (bind m (fun x => k))
  (at level 10, x name, m at level 100, k at level 200, only parsing).

(** A call to a catalog: the service answers from the history of the run so
    far, and the call is recorded. *)
Definition call {A} (ev : event) (service : list event -> answer A) : M A :=
  fun w => (result_of (service (w_trace w)), mk_world (w_file w) (ev :: w_trace w)).

(** A step without effect on the world. *)
Definition pure {A} (a : answer A) : M A := fun w => (result_of a, w).

(** [time.sleep(seconds)] *)
Definition sleep (seconds : nat) : M unit :=
  fun w => (Ok tt, mk_world (w_file w) (EvSleep seconds :: w_trace w)).

(** ** The two catalogs *)

(** A key of a dictionary, or an attribute of an object, that the script
    reads in a way that tells a missing one from one that holds [None]. *)
Inductive field (A : Type) :=
| Missing
| Null
| Present (a : A).
Arguments Missing {A}.
Arguments Null {A}.
Arguments Present {A} a.

(** [d.get(key, fallback)]: the fallback stands in for a missing key only;
    the result [None] is a null. *)
Definition get_or {A} (f : field A) (fallback : A) : option A :=
  match f with
  | Missing => Some fallback
  | Null => None
  | Present a => Some a
  end.

(** The strings among [parts], when all of them are strings. *)
Fixpoint strings (parts : list (option string)) : option (list string) :=
  match parts with
  | [] => Some []
  | Some p :: rest =>
      match strings rest with
      | Some l => Some (p :: l)
      | None => None
      end
  | None :: _ => None
  end.

(** [sep.join(parts)]: an item that is [None] raises [TypeError]. *)
Definition py_join (sep : string) (parts : list (option string)) : answer string :=
  match strings parts with
  | Some l => Returns (join sep l)
  | None => Raises TypeError
  end.

(** [f"{x}"] for a string or [None]. *)
Definition py_format (x : option string) : string := default "None" x.

(** Items of the source listing, as the dictionaries the API returns.  A key
    that the script reads with [.get(key)] or [.get(key) or {}], or whose
    value it only tests for emptiness ([items]), is an [option]: a missing
    key and a null are the same to it.  A key read with
    [.get(key, fallback)] whose value is used is a [field].  An entry of
    [artists] that is not an object is [None]. *)
Record sp_artist := mk_sp_artist { artist_name : field string }.

Record sp_album := mk_sp_album { sp_album_name : field string }.

Record sp_track := mk_sp_track {
  track_id : option string;
  track_name : field string;
  track_artists : field (list (option sp_artist));
  track_album : option sp_album;
  track_duration_ms : field Z
}.

Record sp_item := mk_sp_item {
  item_track : option sp_track;
  item_added_at : option string
}.

Record sp_page := mk_sp_page { page_items : option (list sp_item) }.

(** The dictionaries [fetch_spotify_liked_tracks] builds; [None] is the
    value [None] that a null of the listing leaves in them. *)
Record liked_track := mk_liked_track {
  lt_id : string;
  lt_name : option string;
  lt_artists : list (option string);
  lt_album_name : option string;
  lt_duration_ms : option Z;
  lt_added_at : option string
}.

(** Objects of the target catalog.  An attribute read with
    [getattr(obj, name, None)] is an [option]: [None] is a missing attribute
    or the value [None].  The title and the artists of a track are read
    directly, when the track is printed: they are [field]s. *)
Record ya_like := mk_ya_like {
  like_track_id : option string;
  like_album_id : option string
}.

Record ya_album := mk_ya_album { ya_album_id : option string }.

Record ya_artist := mk_ya_artist { ya_artist_name : field string }.

Record ya_track := mk_ya_track {
  ya_track_id : option string;
  ya_albums : option (list ya_album);
  ya_title : field string;
  ya_artists : field (list ya_artist)
}.

(** [tracks.results]: the outer [None] is an object without the attribute
    (reading it raises [AttributeError]), the inner one the value [None]. *)
Record ya_tracks := mk_ya_tracks { ya_results : option (option (list ya_track)) }.

Record ya_search := mk_ya_search { ya_search_tracks : option ya_tracks }.

(** The clients: each method answers from the history of the run. *)
Record Spotify := mk_Spotify {
  current_user_saved_tracks : list event -> nat -> nat -> answer sp_page
}.

Record Client := mk_Client {
  users_likes_tracks : list event -> answer (option (list ya_like));
  search : list event -> string -> answer (option ya_search);
  users_likes_tracks_add : list event -> string -> answer unit
}.

(** The environment variables, and what constructing the two clients
    does. *)
Record Env := mk_Env {
  SPOTIFY_CLIENT_ID : option string;
  SPOTIFY_CLIENT_SECRET : option string;
  YANDEX_MUSIC_TOKEN : option string;
  SpotifyOAuth : answer Spotify;
  Client_init : answer Client
}.

(** A value that is truthy: a string that is present and not empty. *)
Definition nonempty (o : option string) : option string :=
  match o with
  | Some "" => None
  | _ => o
  end.

(** A source catalog that serves a fixed library, newest like first, in
    pages of at most [limit] items from [offset] on. *)
Definition listing (library : list sp_item) : Spotify :=
  mk_Spotify (fun _ limit offset =>
    Returns (mk_sp_page (Some (take limit (drop offset library))))).

(** An interpreter and a [str] to run the script with on sample inputs: one
    that rejects every string outside the second-precision UTC form, and one
    that prints every value that is not a string as the empty string.  The
    sample inputs below hold well-formed timestamps and string ids only. *)
Definition strict_fromisoformat : string -> option datetime := fun _ => None.

Definition blank_str : json -> string := fun _ => "".

Section Sync.

(** What [datetime.fromisoformat(ts).astimezone(timezone.utc)] yields on a
    string that [parse_iso_utc] does not accept ([None] for a [ValueError]):
    fractional seconds, other offsets, no offset, other separators.  It
    depends on the interpreter version and on the local time zone, so it is
    left open: everything below holds for each choice. *)
Variable fromisoformat_ext : string -> option datetime.

Definition fromisoformat_utc (s : string) : option datetime :=
  match parse_iso_utc s with
  | Some d => Some d
  | None => fromisoformat_ext s
  end.

Definition parse_spotify_ts (ts : option string) : option datetime :=
  match ts with
  | None => None
  | Some "" => None
  | Some s =>
      let s := if endswith s "Z" then drop_last s +:+ "+00:00" else s in
      fromisoformat_utc s
  end.

Definition format_spotify_ts (dt : option datetime) : option string :=
  match dt with
  | None => None
  | Some d => Some (str_replace (isoformat (replace_microsecond0 d)) "+00:00" "Z")
  end.

(** [str(x)] on a value that is not a string (a number, a list, ...); the
    text of Python's [repr] is not needed by anything below. *)
Variable str_nonstring : json -> string.

Definition py_str (x : json) : string :=
  match x with
  | JStr s => s
  | _ => str_nonstring x
  end.

(** ** The persisted state *)

Definition load_state : M dict :=
  fun w =>
    match w_file w with
    | FileAbsent => (Ok STATE_DEFAULT, w)
    | FileUnreadable => (Ok STATE_DEFAULT, w)
    | FileJson (JObj data) =>
        let data :=
          fold_left (fun d kv => dict_setdefault d (fst kv) (snd kv))
            STATE_DEFAULT data in
        let ids :=
          match dict_get data "processed_spotify_ids" with
          | Some (JArr l) => l
          | _ => []
          end in
        (Ok (dict_set data "processed_spotify_ids"
               (JArr (map (fun x => JStr (py_str x)) ids))), w)
    | FileJson _ => (Raise AttributeError, w)
    end.

(** The temporary file is written and then renamed over the state file. *)
Definition save_state (state : dict) : M unit :=
  fun w => (Ok tt, mk_world (FileJson (JObj state)) (w_trace w)).

(** ** The target snapshot *)

Definition add_like_key (result : gset string) (item : ya_like) : gset string :=
  match nonempty (like_track_id item), nonempty (like_album_id item) with
  | Some track_id, Some album_id =>
      {[track_id +:+ ":" +:+ album_id]} ∪ result
  | _, _ => result
  end.

Definition fetch_yandex_liked_ids (ym : Client) : M (gset string) :=
  fun w =>
    match call EvLikesTracks (users_likes_tracks ym) w with
    | (Ok (Some likes), w') => (Ok (fold_left add_like_key likes ∅), w')
    | (Ok None, w') => (Ok ∅, w')
    | (Raise _, w') => (Ok ∅, w')
    | (OutOfFuel, w') => (OutOfFuel, w')
    end.

(** ** The change detector *)

(** [since_dt and added_dt and added_dt <= since_dt] *)
Definition at_or_below (since_dt added_dt : option datetime) : bool :=
  match since_dt, added_dt with
  | Some since, Some added => dt_leb added since
  | _, _ => false
  end.

(** [[a.get("name", "") for a in artists]]: an entry that is not an object
    has no [get]. *)
Fixpoint artist_names (artists : list (option sp_artist))
    : answer (list (option string)) :=
  match artists with
  | [] => Returns []
  | None :: _ => Raises AttributeError
  | Some a :: rest =>
      match artist_names rest with
      | Returns names => Returns (get_or (artist_name a) "" :: names)
      | Raises e => Raises e
      end
  end.

(** The lines that build the dictionary of a track: the comprehension over
    [track.get("artists", [])] cannot iterate over a null. *)
Definition make_liked_track (track_id : string) (track : sp_track)
    (added_raw : option string) : answer liked_track :=
  match get_or (track_artists track) [] with
  | None => Raises TypeError
  | Some artists =>
      match artist_names artists with
      | Raises e => Raises e
      | Returns names =>
          let album := default (mk_sp_album Missing) (track_album track) in
          Returns (mk_liked_track track_id
                     (get_or (track_name track) "")
                     names
                     (get_or (sp_album_name album) "")
                     (get_or (track_duration_ms track) 0%Z)
                     added_raw)
      end
  end.

(** The [for item in items] loop of one page: the tracks collected so far
    and the [stop] flag, unless building a track raises. *)
Fixpoint scan_items (since_dt : option datetime) (items : list sp_item)
    (new_tracks : list liked_track) : answer (list liked_track * bool) :=
  match items with
  | [] => Returns (new_tracks, false)
  | item :: rest =>
      match item_track item with
      | None => scan_items since_dt rest new_tracks
      | Some track =>
          match nonempty (track_id track) with
          | None => scan_items since_dt rest new_tracks
          | Some track_id =>
              let added_raw := item_added_at item in
              let added_dt := parse_spotify_ts added_raw in
              if at_or_below since_dt added_dt then Returns (new_tracks, true)
              else
                match make_liked_track track_id track added_raw with
                | Returns new_track =>
                    scan_items since_dt rest (new_tracks ++ [new_track])
                | Raises e => Raises e
                end
          end
      end
  end.

(** The [while True] loop over the pages; [fuel] bounds its iterations. *)
Fixpoint fetch_pages (fuel : nat) (sp : Spotify) (since_dt : option datetime)
    (page_limit offset : nat) (new_tracks : list liked_track)
    : M (list liked_track) :=
  match fuel with
  | O => fun w => (OutOfFuel, w)
  | S fuel' =>
      let* page := call (EvSavedTracks page_limit offset)
                (fun h => current_user_saved_tracks sp h page_limit offset) in
      let items := default [] (page_items page) in
      match items with
      | [] => ret new_tracks
      | _ :: _ =>
          let* scanned := pure (scan_items since_dt items new_tracks) in
          let '(new_tracks, stop) := scanned in
          if stop then ret new_tracks
          else
            let offset := offset + length items in
            if (length items <? page_limit)%nat then ret new_tracks
            else fetch_pages fuel' sp since_dt page_limit offset new_tracks
      end
  end.

Definition fetch_spotify_liked_tracks (fuel : nat) (sp : Spotify)
    (last_added_at : option string) (page_limit : nat) : M (list liked_track) :=
  let since_dt := parse_spotify_ts last_added_at in
  let* new_tracks := fetch_pages fuel sp since_dt page_limit 0 [] in
  ret (rev new_tracks).

(** What the detector makes of one item of the listing: nothing when the
    track payload or its id is missing (the item is dropped), and otherwise
    the dictionary of the track, or the exception that building it raises. *)
Definition built (item : sp_item) : option (answer liked_track) :=
  match item_track item with
  | None => None
  | Some track =>
      match nonempty (track_id track) with
      | None => None
      | Some track_id => Some (make_liked_track track_id track (item_added_at item))
      end
  end.

(** The track of an item that is not dropped and whose dictionary can be
    built. *)
Definition kept (item : sp_item) : option liked_track :=
  match built item with
  | Some (Returns t) => Some t
  | _ => None
  end.

(** An item that is dropped, or whose dictionary can be built. *)
Definition well_shaped (item : sp_item) : bool :=
  match built item with
  | Some (Raises _) => false
  | _ => true
  end.

(** The tracks of the items of [items] that are not dropped, in their
    order, unless one of them cannot be built. *)
Fixpoint collect (items : list sp_item) : answer (list liked_track) :=
  match items with
  | [] => Returns []
  | item :: rest =>
      match built item with
      | None => collect rest
      | Some (Raises e) => Raises e
      | Some (Returns t) =>
          match collect rest with
          | Returns ts => Returns (t :: ts)
          | Raises e => Raises e
          end
      end
  end.

Definition added_dt_of (item : sp_item) : option datetime :=
  parse_spotify_ts (item_added_at item).

(** The item at which paging stops: an item that is not dropped and whose
    parsed [added_at] is at or below the watermark. *)
Definition stops (since_dt : option datetime) (item : sp_item) : bool :=
  match built item with
  | Some _ => at_or_below since_dt (added_dt_of item)
  | None => false
  end.

(** The items of a listing in front of the first one that stops paging. *)
Fixpoint before_stop (since_dt : option datetime) (items : list sp_item)
    : list sp_item :=
  match items with
  | [] => []
  | item :: rest =>
      if stops since_dt item then [] else item :: before_stop since_dt rest
  end.







(** ** The matcher *)

Definition build_yandex_like_id (track_obj : ya_track) : option string :=
  match nonempty (ya_track_id track_obj), ya_albums track_obj with
  | Some track_id, Some (album :: _) =>
      match nonempty (ya_album_id album) with
      | Some album_id => Some (track_id +:+ ":" +:+ album_id)
      | None => None
      end
  | _, _ => None
  end.

(** [f"{artists_str} — {name}"] with [artists_str = ", ".join(artists)]:
    the title that [main] builds for an item before anything else, and the
    query that the matcher builds from the same dictionary. *)
Definition title_line (artists : list (option string)) (name : option string)
    : answer string :=
  match py_join ", " artists with
  | Returns artists_str => Returns (artists_str +:+ " — " +:+ py_format name)
  | Raises e => Raises e
  end.

Definition search_query (track : liked_track) : answer string :=
  title_line (lt_artists track) (lt_name track).

(** The [for attempt in range(3)] loop around [ym.search]; [None] is the
    [else] branch of the loop, taken when no attempt broke out of it. *)
Fixpoint search_attempts (attempts : nat) (ym : Client) (query : string)
    : M (option (option ya_search)) :=
  match attempts with
  | O => ret None
  | S attempts' =>
      fun w =>
        match call (EvSearch query) (fun h => search ym h query) w with
        | (Ok search_result, w') => (Ok (Some search_result), w')
        | (Raise TimedOutError, w') =>
            (let* _ := sleep 3 in search_attempts attempts' ym query) w'
        | (Raise e, w') => (Raise e, w')
        | (OutOfFuel, w') => (OutOfFuel, w')
        end
  end.

(** The body of the second [try]: the first result, or nothing. *)
Definition first_result (search_result : option ya_search)
    : answer (option ya_track) :=
  match search_result with
  | None => Returns None
  | Some sr =>
      match ya_search_tracks sr with
      | None => Returns None
      | Some tracks =>
          match ya_results tracks with
          | None => Raises AttributeError
          | Some None => Returns None
          | Some (Some []) => Returns None
          | Some (Some (t :: _)) => Returns (Some t)
          end
      end
  end.

Definition find_best_yandex_match (ym : Client) (track : liked_track)
    : M (option ya_track) :=
  let* query := pure (search_query track) in
  let* found := search_attempts 3 ym query in
  match found with
  | None => ret None
  | Some search_result =>
      match first_result search_result with
      | Returns r => ret r
      | Raises _ => ret None
      end
  end.

(** ** Liking *)

(** The [for attempt in range(3)] loop around [ym.users_likes_tracks_add];
    the set is returned as the call leaves it. *)
Fixpoint like_attempts (attempts : nat) (ym : Client) (like_id : string)
    (existing_likes : gset string) : M (bool * gset string) :=
  match attempts with
  | O => ret (false, existing_likes)
  | S attempts' =>
      fun w =>
        match call (EvLikesAdd like_id)
                (fun h => users_likes_tracks_add ym h like_id) w with
        | (Ok _, w') => (Ok (true, {[like_id]} ∪ existing_likes), w')
        | (Raise TimedOutError, w') =>
            (let* _ := sleep 3 in like_attempts attempts' ym like_id existing_likes) w'
        | (Raise _, w') => (Ok (false, existing_likes), w')
        | (OutOfFuel, w') => (OutOfFuel, w')
        end
  end.

Definition like_yandex_track (ym : Client) (ya_track : ya_track)
    (existing_likes : gset string) : M (bool * gset string) :=
  match build_yandex_like_id ya_track with
  | None => ret (false, existing_likes)
  | Some like_id =>
      if bool_decide (like_id ∈ existing_likes) then ret (true, existing_likes)
      else like_attempts 3 ym like_id existing_likes
  end.

(** ** The reconciler *)

Definition init_spotify_client (env : Env) : M Spotify :=
  match nonempty (SPOTIFY_CLIENT_ID env), nonempty (SPOTIFY_CLIENT_SECRET env) with
  | Some _, Some _ => pure (SpotifyOAuth env)
  | _, _ => raise RuntimeError
  end.

Definition init_yandex_client (env : Env) : M Client :=
  match nonempty (YANDEX_MUSIC_TOKEN env) with
  | Some _ => pure (Client_init env)
  | None => raise RuntimeError
  end.

(** [human_title], the first thing an iteration of the loop builds. *)
Definition human_title (track : liked_track) : answer string :=
  title_line (lt_artists track) (lt_name track).

(** [[a.name for a in artists]]: an artist without the attribute raises
    [AttributeError]. *)
Fixpoint ya_artist_names (artists : list ya_artist) : answer (list (option string)) :=
  match artists with
  | [] => Returns []
  | a :: rest =>
      match ya_artist_name a, ya_artist_names rest with
      | Missing, _ => Raises AttributeError
      | _, Raises e => Raises e
      | Null, Returns names => Returns (None :: names)
      | Present name, Returns names => Returns (Some name :: names)
      end
  end.

(** [ya_title], which is built, to be printed, after a like that succeeded:
    [", ".join(a.name for a in ya_track.artists)] reads every name before it
    joins them, and then the title is read. *)
Definition ya_title_line (ya_track : ya_track) : answer string :=
  match ya_artists ya_track with
  | Missing => Raises AttributeError
  | Null => Raises TypeError
  | Present artists =>
      match ya_artist_names artists with
      | Raises e => Raises e
      | Returns names =>
          match py_join ", " names with
          | Raises e => Raises e
          | Returns ya_artists_str =>
              match ya_title ya_track with
              | Missing => Raises AttributeError
              | Null => Returns (ya_artists_str +:+ " — " +:+ py_format None)
              | Present title =>
                  Returns (ya_artists_str +:+ " — " +:+ py_format (Some title))
              end
          end
      end
  end.

(** The variables of [main] that its loop updates. *)
Record LoopState := mk_loop {
  ls_processed_ids : gset string;
  ls_state : dict;
  ls_existing_likes : gset string;
  ls_max_added_dt : option datetime;
  ls_added : nat;
  ls_skipped : nat;
  ls_not_found : nat
}.

(** [if added_dt and (max_added_dt is None or added_dt > max_added_dt)] *)
Definition advance (max_added_dt added_dt : option datetime) : option datetime :=
  match added_dt with
  | None => max_added_dt
  | Some added =>
      match max_added_dt with
      | None => Some added
      | Some m => if dt_gtb added m then Some added else Some m
      end
  end.

(** The lines that end both the not-found and the like branch: the id joins
    the processed set, the state dictionary is updated and saved. *)
Definition record_processed (spotify_id : string) (ls : LoopState) : M LoopState :=
  let processed_ids := {[spotify_id]} ∪ ls_processed_ids ls in
  let state :=
    dict_set (ls_state ls) "processed_spotify_ids"
      (JArr (map JStr (elements processed_ids))) in
  let state :=
    match format_spotify_ts (ls_max_added_dt ls) with
    | Some s => dict_set state "last_spotify_added_at" (JStr s)
    | None => state
    end in
  let* _ := save_state state in
  ret (mk_loop processed_ids state (ls_existing_likes ls) (ls_max_added_dt ls)
         (ls_added ls) (ls_skipped ls) (ls_not_found ls)).

(** One iteration of the [for idx, track in enumerate(spotify_liked)] loop. *)
Definition reconcile (ym : Client) (track : liked_track) (ls : LoopState)
    : M LoopState :=
  let spotify_id := lt_id track in
  let* _ := pure (human_title track) in
  let added_dt := parse_spotify_ts (lt_added_at track) in
  let max_added_dt := advance (ls_max_added_dt ls) added_dt in
  let ls :=
    mk_loop (ls_processed_ids ls) (ls_state ls) (ls_existing_likes ls)
      max_added_dt (ls_added ls) (ls_skipped ls) (ls_not_found ls) in
  if bool_decide (spotify_id ∈ ls_processed_ids ls) then
    ret (mk_loop (ls_processed_ids ls) (ls_state ls) (ls_existing_likes ls)
           max_added_dt (ls_added ls) (S (ls_skipped ls)) (ls_not_found ls))
  else
    let* ya_track := find_best_yandex_match ym track in
    match ya_track with
    | None =>
        record_processed spotify_id
          (mk_loop (ls_processed_ids ls) (ls_state ls) (ls_existing_likes ls)
             max_added_dt (ls_added ls) (ls_skipped ls) (S (ls_not_found ls)))
    | Some ya_track =>
        let* liked := like_yandex_track ym ya_track (ls_existing_likes ls) in
        let '(success, existing_likes) := liked in
        let* _ := if success then pure (ya_title_line ya_track) else ret "" in
        record_processed spotify_id
          (mk_loop (ls_processed_ids ls) (ls_state ls) existing_likes
             max_added_dt (if success then S (ls_added ls) else ls_added ls)
             (ls_skipped ls) (ls_not_found ls))
    end.

Fixpoint reconcile_all (ym : Client) (tracks : list liked_track) (ls : LoopState)
    : M LoopState :=
  match tracks with
  | [] => ret ls
  | track :: rest =>
      let* ls' := reconcile ym track ls in
      reconcile_all ym rest ls'
  end.

(** [state.get("last_spotify_added_at")] as it reaches [parse_spotify_ts]: a
    falsy value is taken for no watermark, a truthy value that is not a
    string has no [endswith]. *)
Definition watermark_of (state : dict) : answer (option string) :=
  match dict_get state "last_spotify_added_at" with
  | None => Returns None
  | Some (JStr s) => Returns (Some s)
  | Some v => if truthy v then Raises AttributeError else Returns None
  end.

(** [set(state.get("processed_spotify_ids", []))] *)
Definition processed_ids_of (state : dict) : gset string :=
  list_to_set (str_items (default (JArr []) (dict_get state "processed_spotify_ids"))).

(** The counters [main] prints at its end. *)
Record Summary := mk_summary {
  sum_total : nat;
  sum_added : nat;
  sum_skipped : nat;
  sum_not_found : nat
}.

(** [main]; [None] is the early return when there is nothing to
    synchronise.  The final loop state is returned with the summary so that
    the in-memory sets can be observed. *)
Definition main (fuel : nat) (env : Env) : M (option (Summary * LoopState)) :=
  let* sp := init_spotify_client env in
  let* ym := init_yandex_client env in
  let* state := load_state in
  let processed_ids := processed_ids_of state in
  let* ya_existing_likes := fetch_yandex_liked_ids ym in
  let* last_added_at_str := pure (watermark_of state) in
  let* spotify_liked := fetch_spotify_liked_tracks fuel sp last_added_at_str 50 in
  match spotify_liked with
  | [] => ret None
  | _ :: _ =>
      let max_added_dt := parse_spotify_ts last_added_at_str in
      let* ls := reconcile_all ym spotify_liked
              (mk_loop processed_ids state ya_existing_likes max_added_dt 0 0 0) in
      ret (Some (mk_summary (length spotify_liked) (ls_added ls) (ls_skipped ls)
                   (ls_not_found ls), ls))
  end.

(** The [if __name__ == "__main__"] block: the exit status of the process
    ([None] when the run does not end). *)
Definition script (fuel : nat) (env : Env) (w : World) : option Z * World :=
  match main fuel env w with
  | (Ok _, w') => (Some 0%Z, w')
  | (Raise _, w') => (Some 1%Z, w')
  | (OutOfFuel, w') => (None, w')
  end.

(** The history after [k] attempts of the call [ev] that timed out, each
    followed by the sleep of 3 seconds. *)
Fixpoint after_timeouts (ev : event) (k : nat) (h : list event) : list event :=
  match k with
  | O => h
  | S k' => EvSleep 3 :: ev :: after_timeouts ev k' h
  end.

(** The client [ym] with another answer of its like listing, and the
    environment [env] with another target client. *)
Definition with_likes_answer (ym : Client)
    (likes : answer (option (list ya_like))) : Client :=
  mk_Client (fun _ => likes) (search ym) (users_likes_tracks_add ym).

Definition with_client (env : Env) (ym : Client) : Env :=
  mk_Env (SPOTIFY_CLIENT_ID env) (SPOTIFY_CLIENT_SECRET env)
    (YANDEX_MUSIC_TOKEN env) (SpotifyOAuth env) (Returns ym).

(** A run [run] of a retry loop around the call [ev] of [service], started
    in the world [w]: the first [k] attempts timed out and were each followed
    by the sleep; then either the [attempts] allowed were used up and the
    loop ended with [exhausted], or attempt [k + 1] raised another exception
    [e] and the loop ended with [failed e], or it returned [r] and the loop
    ended with [succeeded r].  No further attempt follows. *)
Definition retried {A R} (attempts : nat) (service : list event -> answer A)
    (ev : event) (w : World) (run : result R * World)
    (exhausted : result R) (failed : exn -> result R)
    (succeeded : A -> result R) : Prop :=
  exists k,
    k <= attempts
    /\ (forall j, j < k ->
          service (after_timeouts ev j (w_trace w)) = Raises TimedOutError)
    /\ ((k = attempts
         /\ run = (exhausted,
                   mk_world (w_file w) (after_timeouts ev k (w_trace w))))
        \/ (k < attempts
            /\ exists e, e <> TimedOutError
               /\ service (after_timeouts ev k (w_trace w)) = Raises e
               /\ run = (failed e,
                         mk_world (w_file w)
                           (ev :: after_timeouts ev k (w_trace w))))
        \/ (k < attempts
            /\ exists r, service (after_timeouts ev k (w_trace w)) = Returns r
               /\ run = (succeeded r,
                         mk_world (w_file w)
                           (ev :: after_timeouts ev k (w_trace w))))).

(** ** Sample catalogs and states *)

Definition sample_item (id name added_at : string) : sp_item :=
  mk_sp_item
    (Some (mk_sp_track (Some id) (Present name)
             (Present [Some (mk_sp_artist (Present "Artist"))])
             (Some (mk_sp_album (Present "Album"))) (Present 1000%Z)))
    (Some added_at).

Definition sample_candidate (track_id album_id : string) : ya_track :=
  mk_ya_track (Some track_id) (Some [mk_ya_album (Some album_id)]) (Present "Title")
    (Present [mk_ya_artist (Present "Artist")]).

Definition search_finds (results : list ya_track) : answer (option ya_search) :=
  Returns (Some (mk_ya_search (Some (mk_ya_tracks (Some (Some results)))))).

(** A target catalog without likes whose search finds the candidate
    [1:10] for every query and whose add-like call succeeds. *)
Definition sample_client : Client :=
  mk_Client (fun _ => Returns (Some []))
    (fun _ _ => search_finds [sample_candidate "1" "10"])
    (fun _ _ => Returns tt).

(** The same catalog with a search that fails with a network error other
    than a timeout. *)
Definition failing_search_client : Client :=
  mk_Client (fun _ => Returns (Some []))
    (fun _ _ => Raises (OtherError "NetworkError"))
    (fun _ _ => Returns tt).

Definition sample_env (library : list sp_item) (ym : Client) : Env :=
  mk_Env (Some "client-id") (Some "client-secret") (Some "token")
    (Returns (listing library)) (Returns ym).

Definition state_file (ids : list string) (last : string) : file_content :=
  FileJson (JObj [("processed_spotify_ids", JArr (map JStr ids));
                  ("last_spotify_added_at", JStr last)]).

(** The state file of a run, and the watermark candidate its loop ended
    with. *)
Definition file_after {A} (run : result A * World) : file_content :=
  w_file (snd run).

Definition max_added_dt_after (run : result (option (Summary * LoopState)) * World)
    : option datetime :=
  match fst run with
  | Ok (Some (_, ls)) => ls_max_added_dt ls
  | _ => None
  end.

Definition summary_after (run : result (option (Summary * LoopState)) * World)
    : option Summary :=
  match fst run with
  | Ok (Some (s, _)) => Some s
  | _ => None
  end.

(** What is saved as watermark in a state file. *)
Definition saved_watermark (f : file_content) : option json :=
  match f with
  | FileJson (JObj d) => dict_get d "last_spotify_added_at"
  | _ => None
  end.

(** A datetime in UTC whose fields the [datetime] constructor accepts. *)
Definition valid_datetime (d : datetime) : bool :=
  check_date_fields (dt_year d) (dt_month d) (dt_day d)
  && check_time_fields (dt_hour d) (dt_minute d) (dt_second d)
  && (0 <=? dt_microsecond d)%Z && (dt_microsecond d <=? 999999)%Z.

(** A state dictionary as [load_state] hands it out and as [main] saves it:
    the processed ids are a list of strings and the watermark key is
    present. *)
Definition is_JStr (v : json) : bool :=
  match v with JStr _ => true | _ => false end.

Definition well_formed_state (state : dict) : bool :=
  match dict_get state "processed_spotify_ids" with
  | Some (JArr l) => forallb is_JStr l
  | _ => false
  end
  && match dict_get state "last_spotify_added_at" with
     | Some _ => true
     | None => false
     end.

(** The dictionary that the lines at the end of an iteration save for the
    item [spotify_id], from the loop state [ls]. *)
Definition state_to_save (spotify_id : string) (ls : LoopState) : dict :=
  let state :=
    dict_set (ls_state ls) "processed_spotify_ids"
      (JArr (map JStr (elements ({[spotify_id]} ∪ ls_processed_ids ls)))) in
  match format_spotify_ts (ls_max_added_dt ls) with
  | Some s => dict_set state "last_spotify_added_at" (JStr s)
  | None => state
  end.

(** The events of the matcher for [track], and the events of a like against
    the snapshot [likes]: add-like calls are for keys outside the
    snapshot. *)
Definition search_event (track : liked_track) (ev : event) : Prop :=
  (exists query, search_query track = Returns query /\ ev = EvSearch query)
  \/ ev = EvSleep 3.

Definition like_event (likes : gset string) (ev : event) : Prop :=
  ev = EvSleep 3 \/ exists like_id, ev = EvLikesAdd like_id /\ like_id ∉ likes.

(** The events of the reconciliation loop against the snapshot [likes]:
    searches, sleeps, and add-like calls for keys outside the snapshot. *)
Definition loop_event (likes : gset string) (ev : event) : Prop :=
  (exists query, ev = EvSearch query)
  \/ ev = EvSleep 3
  \/ (exists like_id, ev = EvLikesAdd like_id /\ like_id ∉ likes).

(** A page request of the source listing with the page size [limit]. *)
Definition page_event (limit : nat) (ev : event) : Prop :=
  exists offset, ev = EvSavedTracks limit offset.

(** * Properties *)

(** ** Timestamps *)

Lemma is_digit_val c : is_digit c = true -> digit_val c = Some (ord c - 48)%Z.
Proof. unfold is_digit, digit_val. intros ->. reflexivity. Qed.

Lemma is_digit_range c : is_digit c = true -> (0 <= ord c - 48 <= 9)%Z.
Proof. unfold is_digit. intros H. apply andb_prop in H. lia. Qed.

Lemma chr_ord c : chr (ord c) = c.
Proof. unfold chr, ord. rewrite N2Z.id. apply ascii_N_embedding. Qed.

Lemma digit_char_ord c : digit_char (ord c - 48) = c.
Proof.
  unfold digit_char. replace (48 + (ord c - 48))%Z with (ord c) by lia.
  apply chr_ord.
Qed.

Lemma parse_digits_2 a b rest :
  is_digit a = true -> is_digit b = true ->
  parse_digits 2 0 (String a (String b rest)) = Some (digit2 a b, rest).
Proof.
  intros Ha Hb. cbn [parse_digits].
  rewrite (is_digit_val a Ha), (is_digit_val b Hb). unfold digit2.
  do 2 f_equal; lia.
Qed.

Lemma parse_digits_4 a b c d rest :
  is_digit a = true -> is_digit b = true -> is_digit c = true -> is_digit d = true ->
  parse_digits 4 0 (String a (String b (String c (String d rest))))
  = Some ((100 * digit2 a b + digit2 c d)%Z, rest).
Proof.
  intros Ha Hb Hc Hd. cbn [parse_digits].
  rewrite (is_digit_val a Ha), (is_digit_val b Hb), (is_digit_val c Hc),
    (is_digit_val d Hd).
  unfold digit2. do 2 f_equal; lia.
Qed.

Lemma digits_of_sum (a b c d : Z) :
  (0 <= a <= 9 -> 0 <= b <= 9 -> 0 <= c <= 9 -> 0 <= d <= 9 ->
   let n := 100 * (10 * a + b) + (10 * c + d) in
   n / 1000 mod 10 = a /\ n / 100 mod 10 = b /\ n / 10 mod 10 = c /\ n mod 10 = d)%Z.
Proof. intros ? ? ? ? n. subst n. Z.div_mod_to_equations. lia. Qed.

Lemma digits_of_pair (c d : Z) :
  (0 <= c <= 9 -> 0 <= d <= 9 ->
   (10 * c + d) / 10 mod 10 = c /\ (10 * c + d) mod 10 = d)%Z.
Proof. intros ? ?. Z.div_mod_to_equations. lia. Qed.

Lemma fmt02_digit2 a b :
  is_digit a = true -> is_digit b = true ->
  fmt02 (digit2 a b) = String a (String b "").
Proof.
  intros Ha Hb. apply is_digit_range in Ha, Hb. unfold fmt02, digit2.
  destruct (digits_of_pair _ _ Ha Hb) as (-> & ->).
  now rewrite !digit_char_ord.
Qed.

Lemma fmt04_digit2 a b c d :
  is_digit a = true -> is_digit b = true -> is_digit c = true -> is_digit d = true ->
  fmt04 (100 * digit2 a b + digit2 c d)
  = String a (String b (String c (String d ""))).
Proof.
  intros Ha Hb Hc Hd. apply is_digit_range in Ha, Hb, Hc, Hd.
  unfold fmt04, fmt02, digit2.
  destruct (digits_of_sum _ _ _ _ Ha Hb Hc Hd) as (-> & -> & -> & ->).
  now rewrite !digit_char_ord.
Qed.

Lemma not_plus_prefix c rest :
  c <> "+"%char -> String.prefix "+00:00" (String c rest) = false.
Proof.
  intros Hc. cbn [String.prefix]. destruct (ascii_dec "+" c); congruence.
Qed.

Lemma replace_skip c rest :
  c <> "+"%char ->
  replace_from "+00:00" "Z" 0 (String c rest)
  = String c (replace_from "+00:00" "Z" 0 rest).
Proof. intros Hc. cbn [replace_from]. now rewrite not_plus_prefix. Qed.

Lemma digit_not_plus c : is_digit c = true -> c <> "+"%char.
Proof. intros H ->. vm_compute in H. discriminate. Qed.

Lemma expect_same c rest : expect c (String c rest) = Some rest.
Proof. cbn [expect]. now rewrite Ascii.eqb_refl. Qed.

(** A well-formed timestamp parses, whatever the interpreter does with other
    strings, and the datetime it parses to is formatted back to it. *)
Lemma spotify_ts_parse_format (s : string) :
  is_spotify_ts s = true ->
  exists d, parse_spotify_ts (Some s) = Some d
            /\ dt_microsecond d = 0%Z
            /\ format_spotify_ts (Some d) = Some s.
Proof.
  intros H. unfold is_spotify_ts in H.
  do 20 (destruct s as [|? s]; [discriminate H|]).
  destruct s; [|discriminate H].
  cbn [list_ascii_of_string forallb] in H.
  repeat match goal with
         | E : _ && _ = true |- _ => apply andb_prop in E as [? ?]
         end.
  repeat match goal with
         | E : Ascii.eqb _ _ = true |- _ => apply Ascii.eqb_eq in E; subst
         end.
  eexists. split; [|split].
  - unfold parse_spotify_ts, fromisoformat_utc.
    match goal with
    | |- context [endswith ?s "Z"] =>
        replace (endswith s "Z") with true by reflexivity;
        let t := eval cbv in (drop_last s +:+ "+00:00") in
        change (drop_last s +:+ "+00:00") with t
    end.
    cbv beta iota zeta. unfold parse_iso_utc.
    rewrite parse_digits_4 by assumption. cbn [mbind option_bind].
    do 5 (rewrite expect_same; cbn [mbind option_bind];
          rewrite parse_digits_2 by assumption; cbn [mbind option_bind]).
    change ("+00:00" =? "+00:00") with true.
    repeat match goal with
           | E : check_date_fields _ _ _ = true |- _ => rewrite E; clear E
           | E : check_time_fields _ _ _ = true |- _ => rewrite E; clear E
           end.
    cbn [andb]. reflexivity.
  - reflexivity.
  - unfold format_spotify_ts, isoformat, replace_microsecond0, str_replace.
    cbn [dt_year dt_month dt_day dt_hour dt_minute dt_second].
    rewrite fmt04_digit2 by assumption. rewrite !fmt02_digit2 by assumption.
    cbv [String.append].
    repeat (rewrite replace_skip
              by (first [ apply digit_not_plus; assumption | discriminate ])).
    reflexivity.
Qed.

(** ** The order on datetimes *)

Lemma lex_compare_refl a : lex_compare a a = Eq.
Proof. induction a as [|x a IH]; cbn; [|rewrite Z.compare_refl]; auto. Qed.

Lemma lex_compare_antisym a b : lex_compare b a = CompOpp (lex_compare a b).
Proof.
  revert b. induction a as [|x a IH]; intros [|y b]; cbn; auto.
  rewrite (Z.compare_antisym x y). destruct (x ?= y)%Z; cbn; auto.
Qed.

Lemma lex_compare_le_trans a b c :
  lex_compare a b <> Gt -> lex_compare b c <> Gt -> lex_compare a c <> Gt.
Proof.
  revert b c. induction a as [|x a IH]; intros [|y b] [|z c]; cbn; try congruence.
  destruct (Z.compare_spec x y), (Z.compare_spec y z); subst; try congruence.
  - rewrite Z.compare_refl. apply IH.
  - intros _ _. destruct (Z.compare_spec y z); [lia | congruence | lia].
  - intros _ _. destruct (Z.compare_spec x z); [lia | congruence | lia].
  - intros _ _. destruct (Z.compare_spec x z); [lia | congruence | lia].
Qed.

Lemma dt_leb_refl a : dt_leb a a = true.
Proof. unfold dt_leb, dt_compare. now rewrite lex_compare_refl. Qed.

Lemma dt_leb_trans a b c :
  dt_leb a b = true -> dt_leb b c = true -> dt_leb a c = true.
Proof.
  unfold dt_leb, dt_compare. intros Hab Hbc.
  pose proof (lex_compare_le_trans (dt_tuple a) (dt_tuple b) (dt_tuple c)) as H.
  destruct (lex_compare (dt_tuple a) (dt_tuple b)); try discriminate;
    destruct (lex_compare (dt_tuple b) (dt_tuple c)); try discriminate;
    destruct (lex_compare (dt_tuple a) (dt_tuple c)); auto;
    exfalso; apply H; congruence.
Qed.

Lemma dt_gtb_leb a b : dt_gtb a b = negb (dt_leb a b).
Proof. unfold dt_gtb, dt_leb. now destruct (dt_compare a b). Qed.

Lemma dt_leb_total a b : dt_leb a b = true \/ dt_leb b a = true.
Proof.
  unfold dt_leb, dt_compare. rewrite (lex_compare_antisym (dt_tuple a)).
  destruct (lex_compare (dt_tuple a) (dt_tuple b)); cbn; auto.
Qed.

(** ** The change detector *)

Lemma omap_cons_Some {A B} (f : A -> option B) x l y :
  f x = Some y -> omap f (x :: l) = y :: omap f l.
Proof.
  intros H.
  change (omap f (x :: l))
    with (match f x with Some y => y :: omap f l | None => omap f l end).
  now rewrite H.
Qed.

Lemma omap_cons_None {A B} (f : A -> option B) x l :
  f x = None -> omap f (x :: l) = omap f l.
Proof.
  intros H.
  change (omap f (x :: l))
    with (match f x with Some y => y :: omap f l | None => omap f l end).
  now rewrite H.
Qed.

Lemma collect_app (l1 l2 : list sp_item) :
  collect (l1 ++ l2)
  = match collect l1 with
    | Returns a =>
        match collect l2 with
        | Returns b => Returns (a ++ b)
        | Raises e => Raises e
        end
    | Raises e => Raises e
    end.
Proof.
  induction l1 as [|item rest IH]; cbn [app collect].
  - now destruct (collect l2).
  - destruct (built item) as [[t|e]|]; [|reflexivity|exact IH].
    rewrite IH. destruct (collect rest); [|reflexivity].
    now destruct (collect l2).
Qed.

Lemma collect_kept (items : list sp_item) :
  forallb well_shaped items = true -> collect items = Returns (omap kept items).
Proof.
  induction items as [|item rest IH]; [reflexivity|]. cbn [forallb collect].
  intros H. apply andb_prop in H as [Hitem Hrest]. rewrite (IH Hrest).
  unfold well_shaped in Hitem.
  destruct (built item) as [[t|e]|] eqn:Hb; [| discriminate Hitem |].
  - assert (Hk : kept item = Some t) by (unfold kept; now rewrite Hb).
    now rewrite (omap_cons_Some _ _ _ _ Hk).
  - assert (Hk : kept item = None) by (unfold kept; now rewrite Hb).
    now rewrite (omap_cons_None _ _ _ Hk).
Qed.

Lemma scan_items_spec since items acc :
  scan_items since items acc
  = match collect (before_stop since items) with
    | Returns ts => Returns (acc ++ ts, existsb (stops since) items)
    | Raises e => Raises e
    end.
Proof.
  revert acc. induction items as [|item rest IH]; intros acc.
  - cbn. now rewrite app_nil_r.
  - cbn [scan_items before_stop existsb]. unfold stops at 1 2.
    destruct (item_track item) as [track|] eqn:Htrack.
    + destruct (nonempty (track_id track)) as [tid|] eqn:Hid.
      * assert (Hb : built item
                     = Some (make_liked_track tid track (item_added_at item)))
          by (unfold built; now rewrite Htrack, Hid).
        rewrite Hb. fold (added_dt_of item).
        destruct (at_or_below since (added_dt_of item)); cbn [orb collect].
        -- now rewrite app_nil_r.
        -- rewrite Hb.
           destruct (make_liked_track tid track (item_added_at item)) as [t|e];
             [|reflexivity].
           rewrite IH. destruct (collect (before_stop since rest)); [|reflexivity].
           now rewrite <- app_assoc.
      * assert (Hb : built item = None) by (unfold built; now rewrite Htrack, Hid).
        rewrite Hb. cbn [orb collect]. rewrite Hb. apply IH.
    + assert (Hb : built item = None) by (unfold built; now rewrite Htrack).
      rewrite Hb. cbn [orb collect]. rewrite Hb. apply IH.
Qed.

Lemma before_stop_none since items :
  existsb (stops since) items = false -> before_stop since items = items.
Proof.
  induction items as [|item rest IH]; cbn; [reflexivity|].
  destruct (stops since item); cbn; [discriminate|]. intros H. now rewrite IH.
Qed.

Lemma before_stop_app since l1 l2 :
  before_stop since (l1 ++ l2)
  = if existsb (stops since) l1 then before_stop since l1
    else l1 ++ before_stop since l2.
Proof.
  induction l1 as [|item rest IH]; cbn; [reflexivity|].
  destruct (stops since item); cbn; [reflexivity|].
  rewrite IH. now destruct (existsb (stops since) rest).
Qed.

(** The page requests of a fetch: each with the given page size, at an
    offset that [bound] limits. *)
Definition page_request (limit bound : nat) (ev : event) : Prop :=
  exists offset, ev = EvSavedTracks limit offset /\ offset <= bound.

(** The fetch on a listing: it collects the tracks in front of the item that
    stops it, and raises when one of them cannot be built. *)
Lemma fetch_pages_listing since limit fuel :
  0 < limit ->
  forall done rest acc w,
    length rest < fuel ->
    existsb (stops since) done = false ->
    exists evs,
      fetch_pages fuel (listing (done ++ rest)) since limit (length done) acc w
      = (match collect (before_stop since rest) with
         | Returns ts => Ok (acc ++ ts)
         | Raises e => Raise e
         end,
         mk_world (w_file w) (evs ++ w_trace w))
      /\ Forall (page_request limit (length (before_stop since (done ++ rest)))) evs.
Proof.
  intros Hlimit. induction fuel as [|fuel IH]; intros done rest acc w Hfuel Hdone;
    [lia|].
  assert (Hbound : length done <= length (before_stop since (done ++ rest))).
  { rewrite before_stop_app, Hdone, length_app. lia. }
  assert (Hone :
    Forall (page_request limit (length (before_stop since (done ++ rest))))
      [EvSavedTracks limit (length done)]).
  { repeat constructor. now exists (length done). }
  cbn [fetch_pages]. unfold bind at 1, call.
  cbn [listing current_user_saved_tracks result_of].
  rewrite drop_app_length. cbv beta iota zeta delta [page_items default id].
  destruct (take limit rest) as [|item page] eqn:Hpage.
  - exists [EvSavedTracks limit (length done)]. split; [|exact Hone].
    destruct rest as [|x rest]; [|destruct limit; [lia | discriminate Hpage]].
    cbn. now rewrite app_nil_r.
  - rewrite scan_items_spec. rewrite <- Hpage.
    assert (Hrest : rest = take limit rest ++ drop limit rest)
      by (symmetry; apply take_drop).
    assert (Hsplit :
      before_stop since rest
      = if existsb (stops since) (take limit rest)
        then before_stop since (take limit rest)
        else take limit rest ++ before_stop since (drop limit rest)).
    { rewrite Hrest at 1. apply before_stop_app. }
    unfold bind at 1, pure.
    destruct (existsb (stops since) (take limit rest)) eqn:Hstop.
    + exists [EvSavedTracks limit (length done)]. split; [|exact Hone].
      rewrite Hsplit.
      now destruct (collect (before_stop since (take limit rest))).
    + rewrite (before_stop_none _ _ Hstop) in *.
      rewrite Hsplit, collect_app.
      destruct (collect (take limit rest)) as [ts|e]; cbn [result_of];
        [|exists [EvSavedTracks limit (length done)]; split; [reflexivity|exact Hone]].
      destruct (length (take limit rest) <? limit)%nat eqn:Hshort.
      * exists [EvSavedTracks limit (length done)]. split; [|exact Hone].
        apply Nat.ltb_lt in Hshort. rewrite length_take in Hshort.
        assert (Hall : drop limit rest = []) by (apply drop_ge; lia).
        rewrite Hall. cbn [before_stop collect]. now rewrite app_nil_r.
      * apply Nat.ltb_ge in Hshort. rewrite length_take in Hshort.
        destruct (IH (done ++ take limit rest) (drop limit rest)
                    (acc ++ ts)
                    (mk_world (w_file w) (EvSavedTracks limit (length done) :: w_trace w)))
          as (evs & Hrun & Hevs).
        -- rewrite length_drop. lia.
        -- now rewrite existsb_app, Hdone, Hstop.
        -- rewrite <- app_assoc, <- Hrest, length_app in Hrun.
           rewrite <- app_assoc, <- Hrest in Hevs.
           exists (evs ++ [EvSavedTracks limit (length done)]). split.
           ++ cbn [w_file w_trace] in Hrun. rewrite Hrun.
              rewrite <- app_assoc. cbn [app].
              now destruct (collect (before_stop since (drop limit rest)));
                rewrite <- ?app_assoc.
           ++ apply Forall_app. split; assumption.
Qed.




Lemma kept_built (item : sp_item) (t : liked_track) :
  kept item = Some t -> built item = Some (Returns t).
Proof. unfold kept. now destruct (built item) as [[t'|e]|]; intros [= ->]. Qed.




(** ** The retry loops *)

Lemma after_timeouts_shift ev k h :
  after_timeouts ev k (EvSleep 3 :: ev :: h) = after_timeouts ev (S k) h.
Proof. induction k as [|k IH]; cbn; [reflexivity|]. now rewrite IH. Qed.

(** One more attempt in front of a retry loop: it either decides the outcome
    or times out and leaves the rest to the loop. *)
Lemma retried_step {A R} attempts (service : list event -> answer A) ev w
    (run : result R * World) exhausted failed succeeded :
  match service (w_trace w) with
  | Returns r => run = (succeeded r, mk_world (w_file w) (ev :: w_trace w))
  | Raises e =>
      if decide (e = TimedOutError)
      then retried attempts service ev
             (mk_world (w_file w) (EvSleep 3 :: ev :: w_trace w)) run
             exhausted failed succeeded
      else run = (failed e, mk_world (w_file w) (ev :: w_trace w))
  end ->
  retried (S attempts) service ev w run exhausted failed succeeded.
Proof.
  destruct (service (w_trace w)) as [r|e] eqn:Hfirst.
  - intros ->. exists 0. split; [lia|]. split; [intros j Hj; lia|]. right. right.
    split; [lia|]. now exists r.
  - destruct (decide (e = TimedOutError)) as [->|He].
    + intros (k & Hk & Hall & Hend). cbn [w_file w_trace] in Hall, Hend.
      setoid_rewrite after_timeouts_shift in Hall.
      rewrite !after_timeouts_shift in Hend.
      exists (S k). split; [lia|]. split.
      { intros [|j] Hj; [exact Hfirst|]. apply Hall. lia. }
      destruct Hend as [(-> & Hrun) | [(Hlt & e & He & Hcall & Hrun)
                                      | (Hlt & r & Hcall & Hrun)]].
      * left. split; [reflexivity|]. exact Hrun.
      * right. left. split; [lia|]. now exists e.
      * right. right. split; [lia|]. now exists r.
    + intros ->. exists 0. split; [lia|]. split; [intros j Hj; lia|]. right. left.
      split; [lia|]. now exists e.
Qed.

Lemma retried_none {A R} (service : list event -> answer A) ev w
    (exhausted : result R) failed succeeded :
  retried 0 service ev w (exhausted, w) exhausted failed succeeded.
Proof.
  exists 0. split; [lia|]. split; [intros j Hj; lia|]. left.
  split; [reflexivity|]. now destruct w.
Qed.

Lemma search_attempts_spec (attempts : nat) (ym : Client) (query : string) :
  forall w : World,
    retried attempts (fun h => search ym h query) (EvSearch query) w
      (search_attempts attempts ym query w)
      (Ok None) (fun e => Raise e) (fun r => Ok (Some r)).
Proof.
  induction attempts as [|n IH]; intros w; [apply retried_none|].
  apply retried_step. cbn [search_attempts]. unfold call.
  destruct (search ym (w_trace w) query) as [r|e]; [reflexivity|].
  destruct (decide (e = TimedOutError)) as [->|He].
  - cbn [result_of]. unfold bind, sleep. cbn [w_file w_trace]. apply IH.
  - now destruct e.
Qed.

Lemma like_attempts_spec (attempts : nat) (ym : Client) (like_id : string)
    (existing_likes : gset string) :
  forall w : World,
    retried attempts (fun h => users_likes_tracks_add ym h like_id)
      (EvLikesAdd like_id) w
      (like_attempts attempts ym like_id existing_likes w)
      (Ok (false, existing_likes))
      (fun _ => Ok (false, existing_likes))
      (fun _ => Ok (true, {[like_id]} ∪ existing_likes)).
Proof.
  induction attempts as [|n IH]; intros w; [apply retried_none|].
  apply retried_step. cbn [like_attempts]. unfold call.
  destruct (users_likes_tracks_add ym (w_trace w) like_id) as [r|e]; [reflexivity|].
  destruct (decide (e = TimedOutError)) as [->|He].
  - cbn [result_of]. unfold bind, sleep. cbn [w_file w_trace]. apply IH.
  - now destruct e.
Qed.


(** ** The target snapshot *)

Lemma elem_of_like_keys (likes : list ya_like) (result : gset string) key :
  key ∈ fold_left add_like_key likes result
  <-> key ∈ result
      \/ exists item track_id album_id,
           item ∈ likes
           /\ nonempty (like_track_id item) = Some track_id
           /\ nonempty (like_album_id item) = Some album_id
           /\ key = track_id +:+ ":" +:+ album_id.
Proof.
  revert result. induction likes as [|item rest IH]; intros result; cbn [fold_left].
  - split; [now left|]. intros [H | (item & ? & ? & Hin & _)]; [exact H|].
    now apply elem_of_nil in Hin.
  - rewrite IH. unfold add_like_key.
    destruct (nonempty (like_track_id item)) as [tid|] eqn:Htid;
      [destruct (nonempty (like_album_id item)) as [aid|] eqn:Haid|].
    + rewrite elem_of_union, elem_of_singleton. split.
      * intros [[-> | H] | (item' & t & a & Hin & H)]; [| now left |].
        -- right. exists item, tid, aid. split; [left|]; auto.
        -- right. exists item', t, a. split; [now right | exact H].
      * intros [H | (item' & t & a & Hin & Ht & Ha & ->)]; [left; now right|].
        apply elem_of_cons in Hin as [-> | Hin].
        -- left. left. congruence.
        -- right. now exists item', t, a.
    + split.
      * intros [H | (item' & t & a & Hin & H)]; [now left|].
        right. exists item', t, a. split; [now right | exact H].
      * intros [H | (item' & t & a & Hin & Ht & Ha & ->)]; [now left|].
        apply elem_of_cons in Hin as [-> | Hin]; [congruence|].
        right. now exists item', t, a.
    + split.
      * intros [H | (item' & t & a & Hin & H)]; [now left|].
        right. exists item', t, a. split; [now right | exact H].
      * intros [H | (item' & t & a & Hin & Ht & Ha & ->)]; [now left|].
        apply elem_of_cons in Hin as [-> | Hin]; [congruence|].
        right. now exists item', t, a.
Qed.

Lemma reconcile_all_client (ym ym' : Client) tracks :
  search ym' = search ym ->
  users_likes_tracks_add ym' = users_likes_tracks_add ym ->
  reconcile_all ym' tracks = reconcile_all ym tracks.
Proof.
  intros Hsearch Hadd.
  assert (Hstep : reconcile ym' = reconcile ym).
  { unfold reconcile, find_best_yandex_match, like_yandex_track.
    cbn [search_attempts like_attempts]. now rewrite Hsearch, Hadd. }
  induction tracks as [|track rest IH]; [reflexivity|].
  cbn [reconcile_all]. now rewrite Hstep, IH.
Qed.

Lemma init_spotify_client_world env w : snd (init_spotify_client env w) = w.
Proof.
  unfold init_spotify_client, pure, raise.
  now destruct (nonempty (SPOTIFY_CLIENT_ID env)),
    (nonempty (SPOTIFY_CLIENT_SECRET env)).
Qed.

Lemma init_yandex_client_world env w : snd (init_yandex_client env w) = w.
Proof.
  unfold init_yandex_client, pure, raise.
  now destruct (nonempty (YANDEX_MUSIC_TOKEN env)).
Qed.

Lemma load_state_world w : snd (load_state w) = w.
Proof.
  unfold load_state. destruct (w_file w) as [| |v]; try reflexivity.
  now destruct v.
Qed.

(** C8. Fetching the target snapshot never raises.  When the like listing of
    the target catalog fails, the snapshot is the empty set, and the run
    goes on as it does when the listing answers with no likes at all; when
    the listing succeeds, the snapshot holds exactly the keys
    [track_id:album_id] of the listed likes that have both a track id and an
    album id. *)
Theorem target_snapshot_best_effort (ym : Client) (w : World) :
  (exists likes,
     fetch_yandex_liked_ids ym w
     = (Ok likes, mk_world (w_file w) (EvLikesTracks :: w_trace w))
     /\ match users_likes_tracks ym (w_trace w) with
        | Raises _ => likes = ∅
        | Returns None => likes = ∅
        | Returns (Some listed) =>
            forall key,
              key ∈ likes
              <-> exists item track_id album_id,
                    item ∈ listed
                    /\ nonempty (like_track_id item) = Some track_id
                    /\ nonempty (like_album_id item) = Some album_id
                    /\ key = track_id +:+ ":" +:+ album_id
        end)
  /\ (forall fuel env e,
        Client_init env = Returns ym ->
        users_likes_tracks ym (w_trace w) = Raises e ->
        main fuel env w
        = main fuel (with_client env (with_likes_answer ym (Returns (Some [])))) w).
Proof.
  split.
  - unfold fetch_yandex_liked_ids, call.
    destruct (users_likes_tracks ym (w_trace w)) as [[listed|]|e]; cbn [result_of];
      eexists; (split; [reflexivity|]); try reflexivity.
    intros key. rewrite elem_of_like_keys. split; [|now right].
    intros [H|H]; [now apply not_elem_of_empty in H | exact H].
  - intros fuel env e Hclient Hraise.
    set (ym' := with_likes_answer ym (Returns (Some []))).
    unfold main, bind.
    change (init_spotify_client (with_client env ym'))
      with (init_spotify_client env).
    pose proof (init_spotify_client_world env w) as Hw1.
    destruct (init_spotify_client env w) as [[sp|e1|] w1]; cbn [snd] in Hw1;
      subst w1; try reflexivity.
    unfold init_yandex_client. cbn [with_client YANDEX_MUSIC_TOKEN Client_init].
    rewrite Hclient.
    destruct (nonempty (YANDEX_MUSIC_TOKEN env)); [|reflexivity].
    cbn [pure result_of].
    pose proof (load_state_world w) as Hw2.
    destruct (load_state w) as [[state|e2|] w2]; cbn [snd] in Hw2; subst w2;
      try reflexivity.
    unfold fetch_yandex_liked_ids, call.
    change (users_likes_tracks ym' (w_trace w)) with (Returns (Some (@nil ya_like))).
    rewrite Hraise. cbn [result_of fold_left].
    destruct (watermark_of state) as [last|e3]; cbn [result_of]; [|reflexivity].
    destruct (fetch_spotify_liked_tracks fuel sp last 50 _) as [[tracks|e4|] w3];
      try reflexivity.
    destruct tracks as [|track rest]; [reflexivity|].
    rewrite (reconcile_all_client ym ym'); reflexivity.
Qed.

(** ** The persisted state *)

Lemma dict_get_set d k v k' :
  dict_get (dict_set d k v) k' = if String.eqb k' k then Some v else dict_get d k'.
Proof.
  induction d as [|[k0 v0] rest IH]; cbn [dict_set dict_get].
  - now destruct (String.eqb k' k).
  - destruct (String.eqb_spec k k0) as [->|Hk]; cbn [dict_get].
    + now destruct (String.eqb k' k0).
    + rewrite IH. destruct (String.eqb_spec k' k0) as [->|Hk'];
        [|reflexivity].
      destruct (String.eqb_spec k0 k); congruence.
Qed.

Lemma dict_get_setdefault_other d k v k' :
  k' <> k -> dict_get (dict_setdefault d k v) k' = dict_get d k'.
Proof.
  intros Hk. unfold dict_setdefault. destruct (dict_get d k); [reflexivity|].
  rewrite dict_get_set. now destruct (String.eqb_spec k' k).
Qed.

Lemma dict_get_setdefault_same d k v :
  dict_get (dict_setdefault d k v) k = Some (default v (dict_get d k)).
Proof.
  unfold dict_setdefault. destruct (dict_get d k) as [v'|] eqn:Hget; cbn.
  - exact Hget.
  - now rewrite dict_get_set, String.eqb_refl.
Qed.

Lemma omap_fmap_strings (l : list string) :
  omap (fun x => match x with JStr s => Some s | _ => None end) (map JStr l) = l.
Proof.
  induction l as [|x l IH]; [reflexivity|].
  cbn [map]. rewrite (omap_cons_Some _ _ _ x); [now rewrite IH | reflexivity].
Qed.

(** What a saved state gives back when it is loaded again. *)
Lemma load_saved_watermark (state : dict) (s : string) (w : World) :
  dict_get state "last_spotify_added_at" = Some (JStr s) ->
  exists loaded,
    load_state (snd (save_state state w)) = (Ok loaded, snd (save_state state w))
    /\ watermark_of loaded = Returns (Some s).
Proof.
  intros Hget. unfold save_state, load_state. cbn [snd w_file w_trace].
  eexists. split; [reflexivity|]. unfold watermark_of.
  rewrite dict_get_set. cbn [String.eqb Ascii.eqb Bool.eqb]. cbn [fold_left STATE_DEFAULT fst snd].
  rewrite dict_get_setdefault_same, dict_get_setdefault_other by discriminate.
  now rewrite Hget.
Qed.

(** C10. A timestamp of the form [YYYY-MM-DDTHH:MM:SSZ] that denotes a
    datetime is formatted back to itself after parsing, so parsing the
    formatted string gives the same datetime again, and a watermark that a
    run saved in this form is the watermark the next run loads. *)
Theorem format_parse_roundtrip (s : string) :
  is_spotify_ts s = true ->
  format_spotify_ts (parse_spotify_ts (Some s)) = Some s
  /\ parse_spotify_ts (format_spotify_ts (parse_spotify_ts (Some s)))
     = parse_spotify_ts (Some s)
  /\ forall (state : dict) (w : World),
       exists loaded,
         load_state
           (snd (save_state (dict_set state "last_spotify_added_at" (JStr s)) w))
         = (Ok loaded,
            snd (save_state (dict_set state "last_spotify_added_at" (JStr s)) w))
         /\ watermark_of loaded = Returns (Some s).
Proof.
  intros Hs. destruct (spotify_ts_parse_format s Hs) as (d & Hparse & _ & Hformat).
  rewrite Hparse, Hformat. split; [reflexivity|]. split; [exact Hparse|].
  intros state w. apply load_saved_watermark.
  now rewrite dict_get_set, String.eqb_refl.
Qed.

(** ** The reconciler *)

Lemma find_best_yandex_match_found (ym : Client) (track : liked_track)
    (ya : ya_track) (w w1 : World) :
  find_best_yandex_match ym track w = (Ok (Some ya), w1) ->
  exists query k,
    search_query track = Returns query
    /\ k < 3
    /\ w1 = mk_world (w_file w)
              (EvSearch query :: after_timeouts (EvSearch query) k (w_trace w)).
Proof.
  unfold find_best_yandex_match. unfold bind at 1, pure.
  destruct (search_query track) as [query|e]; cbn [result_of]; [|discriminate].
  unfold bind. intros Hrun.
  destruct (search_attempts_spec 3 ym query w)
    as (k & _ & _ & [(_ & Hend) | [(_ & e & _ & _ & Hend) | (Hk & r & _ & Hend)]]);
    rewrite Hend in Hrun.
  - discriminate Hrun.
  - discriminate Hrun.
  - exists query, k. split; [reflexivity|]. split; [exact Hk|].
    destruct (first_result r); unfold ret in Hrun; congruence.
Qed.

Lemma like_yandex_track_inserts (ym : Client) (ya : ya_track) (like_id : string)
    (likes likes' : gset string) (w w' : World) :
  build_yandex_like_id ya = Some like_id ->
  like_yandex_track ym ya likes w = (Ok (true, likes'), w') ->
  like_id ∈ likes'.
Proof.
  unfold like_yandex_track. intros -> Hrun.
  destruct (bool_decide (like_id ∈ likes)) eqn:Hin.
  - apply bool_decide_eq_true in Hin. unfold ret in Hrun. congruence.
  - destruct (like_attempts_spec 3 ym like_id likes w)
      as (k & _ & _ & [(_ & Hend) | [(_ & e & _ & _ & Hend) | (_ & r & _ & Hend)]]);
      rewrite Hend in Hrun; try discriminate Hrun.
    assert (likes' = {[like_id]} ∪ likes) by congruence. subst likes'.
    set_solver.
Qed.

Lemma record_processed_eq (spotify_id : string) (ls : LoopState) (w : World) :
  record_processed spotify_id ls w
  = (Ok (mk_loop ({[spotify_id]} ∪ ls_processed_ids ls)
           (state_to_save spotify_id ls) (ls_existing_likes ls)
           (ls_max_added_dt ls) (ls_added ls) (ls_skipped ls) (ls_not_found ls)),
     mk_world (FileJson (JObj (state_to_save spotify_id ls))) (w_trace w)).
Proof. reflexivity. Qed.

Lemma state_to_save_spec (spotify_id : string) (ls : LoopState) :
  dict_get (state_to_save spotify_id ls) "processed_spotify_ids"
  = Some (JArr (map JStr (elements ({[spotify_id]} ∪ ls_processed_ids ls))))
  /\ dict_get (state_to_save spotify_id ls) "last_spotify_added_at"
     = match format_spotify_ts (ls_max_added_dt ls) with
       | Some s => Some (JStr s)
       | None => dict_get (ls_state ls) "last_spotify_added_at"
       end
  /\ (forall k,
        k <> "processed_spotify_ids" -> k <> "last_spotify_added_at" ->
        dict_get (state_to_save spotify_id ls) k = dict_get (ls_state ls) k).
Proof.
  unfold state_to_save.
  destruct (format_spotify_ts (ls_max_added_dt ls)) as [s|];
    repeat split; try (intros k Hk1 Hk2); rewrite ?dict_get_set;
    cbn [String.eqb Ascii.eqb Bool.eqb]; try reflexivity.
  - destruct (String.eqb_spec k "last_spotify_added_at"); [contradiction|].
    destruct (String.eqb_spec k "processed_spotify_ids"); [contradiction|].
    reflexivity.
  - destruct (String.eqb_spec k "processed_spotify_ids"); [contradiction|].
    reflexivity.
Qed.

(** A candidate whose like key is in the in-memory snapshot: the item is
    reconciled without any add-like call (the calls of the step are the
    search attempts).  When the title of the candidate can be built, the
    item counts as added and its id joins the processed ids, which are saved
    to the state file at once; when it cannot, the exception leaves the
    iteration before anything is recorded.  The snapshot holds a key either
    from the start or because an earlier like of the same run succeeded: a
    successful like leaves the key in the snapshot it hands on. *)
Lemma known_key_is_not_liked_again (ym : Client) (track : liked_track)
    (ls : LoopState) (ya : ya_track) (like_id : string) (w w1 : World) :
  lt_id track ∉ ls_processed_ids ls ->
  find_best_yandex_match ym track w = (Ok (Some ya), w1) ->
  build_yandex_like_id ya = Some like_id ->
  like_id ∈ ls_existing_likes ls ->
  (exists query k,
     search_query track = Returns query
     /\ k < 3
     /\ w1 = mk_world (w_file w)
               (EvSearch query :: after_timeouts (EvSearch query) k (w_trace w)))
  /\ (forall title,
        ya_title_line ya = Returns title ->
        exists ls',
          reconcile ym track ls w
          = (Ok ls', mk_world (FileJson (JObj (ls_state ls'))) (w_trace w1))
          /\ ls_added ls' = S (ls_added ls)
          /\ ls_not_found ls' = ls_not_found ls
          /\ ls_skipped ls' = ls_skipped ls
          /\ ls_existing_likes ls' = ls_existing_likes ls
          /\ ls_processed_ids ls' = {[lt_id track]} ∪ ls_processed_ids ls
          /\ dict_get (ls_state ls') "processed_spotify_ids"
             = Some (JArr (map JStr (elements (ls_processed_ids ls'))))
          /\ lt_id track
             ∈ str_items (default JNull
                            (dict_get (ls_state ls') "processed_spotify_ids")))
  /\ (forall e,
        ya_title_line ya = Raises e -> reconcile ym track ls w = (Raise e, w1))
  /\ (forall likes likes' w0 w0',
        like_yandex_track ym ya likes w0 = (Ok (true, likes'), w0') ->
        like_id ∈ likes').
Proof.
  intros Hnew Hfind Hbuild Hliked.
  destruct (find_best_yandex_match_found _ _ _ _ _ Hfind) as (query & k & Hquery & Hk & ->).
  split; [now exists query, k|].
  assert (Hrun :
    reconcile ym track ls w
    = (let* _ := pure (ya_title_line ya) in
       record_processed (lt_id track)
         (mk_loop (ls_processed_ids ls) (ls_state ls) (ls_existing_likes ls)
            (advance (ls_max_added_dt ls) (parse_spotify_ts (lt_added_at track)))
            (S (ls_added ls)) (ls_skipped ls) (ls_not_found ls)))
        (mk_world (w_file w)
           (EvSearch query :: after_timeouts (EvSearch query) k (w_trace w)))).
  { unfold reconcile. unfold bind at 1, pure, human_title.
    unfold search_query in Hquery. rewrite Hquery. cbn [result_of].
    cbn [ls_processed_ids ls_existing_likes ls_state ls_added ls_skipped
         ls_not_found].
    rewrite (bool_decide_eq_false_2 _ Hnew). unfold bind at 1.
    rewrite Hfind. unfold like_yandex_track. rewrite Hbuild.
    rewrite (bool_decide_eq_true_2 _ Hliked).
    unfold bind at 1, ret at 1. reflexivity. }
  split; [|split].
  - intros title Htitle. rewrite Hrun. unfold bind, pure. rewrite Htitle.
    cbn [result_of]. rewrite record_processed_eq.
    cbn [w_trace].
    match goal with |- exists ls', (Ok ?x, _) = _ /\ _ => exists x end.
    split; [reflexivity|].
    cbn [ls_processed_ids ls_state ls_existing_likes ls_max_added_dt ls_added
         ls_skipped ls_not_found].
    match goal with
    | |- context [state_to_save ?id ?l] =>
        destruct (state_to_save_spec id l) as (Hids & _)
    end.
    cbn [ls_processed_ids] in Hids.
    repeat split; try reflexivity; try assumption.
    rewrite Hids. cbv beta iota delta [default from_option id str_items].
    rewrite omap_fmap_strings. apply elem_of_elements. set_solver.
  - intros e Htitle. rewrite Hrun. unfold bind, pure. now rewrite Htitle.
  - intros likes likes' w0 w0'. now apply like_yandex_track_inserts.
Qed.

Lemma fetch_yandex_liked_ids_ok (ym : Client) (w : World) :
  exists likes,
    fetch_yandex_liked_ids ym w
    = (Ok likes, mk_world (w_file w) (EvLikesTracks :: w_trace w)).
Proof.
  unfold fetch_yandex_liked_ids, call.
  destruct (users_likes_tracks ym (w_trace w)) as [[listed|]|e]; cbn [result_of];
    eexists; reflexivity.
Qed.

Lemma make_liked_track_fields (track_id : string) (track : sp_track)
    (added_raw : option string) (t : liked_track) :
  make_liked_track track_id track added_raw = Returns t ->
  lt_id t = track_id /\ lt_added_at t = added_raw.
Proof.
  unfold make_liked_track. destruct (get_or (track_artists track) []); [|discriminate].
  destruct (artist_names l); [|discriminate]. now intros [= <-].
Qed.

Lemma kept_id (item : sp_item) (t : liked_track) :
  kept item = Some t -> lt_id t <> "" /\ lt_added_at t = item_added_at item.
Proof.
  intros Hk. apply kept_built in Hk. unfold built in Hk.
  destruct (item_track item) as [track|]; [|discriminate].
  destruct (track_id track) as [[|c id]|] eqn:Hid; cbn [nonempty] in Hk;
    try discriminate.
  injection Hk as Hk. apply make_liked_track_fields in Hk as [-> ->].
  split; [discriminate | reflexivity].
Qed.



Lemma reconcile_processed (ym : Client) (track : liked_track) (ls : LoopState)
    (w : World) :
  lt_id track ∈ ls_processed_ids ls ->
  reconcile ym track ls w
  = (match human_title track with
     | Returns _ =>
         Ok (mk_loop (ls_processed_ids ls) (ls_state ls) (ls_existing_likes ls)
               (advance (ls_max_added_dt ls) (parse_spotify_ts (lt_added_at track)))
               (ls_added ls) (S (ls_skipped ls)) (ls_not_found ls))
     | Raises e => Raise e
     end, w).
Proof.
  intros Hin. unfold reconcile. unfold bind at 1, pure.
  destruct (human_title track); cbn [result_of]; [|reflexivity].
  cbn [ls_processed_ids ls_state ls_existing_likes ls_added ls_skipped
       ls_not_found].
  now rewrite (bool_decide_eq_true_2 _ Hin).
Qed.

Lemma reconcile_ok_titled (ym : Client) (track : liked_track)
    (ls ls' : LoopState) (w : World) :
  fst (reconcile ym track ls w) = Ok ls' ->
  exists title, human_title track = Returns title.
Proof.
  unfold reconcile. unfold bind at 1, pure.
  destruct (human_title track) as [title|e]; cbn [result_of fst];
    [now exists title | discriminate].
Qed.

Lemma reconcile_all_ok_titled (ym : Client) (tracks : list liked_track) :
  forall (ls ls' : LoopState) (w : World),
    fst (reconcile_all ym tracks ls w) = Ok ls' ->
    Forall (fun t => exists title, human_title t = Returns title) tracks.
Proof.
  induction tracks as [|track rest IH]; intros ls ls' w; [constructor|].
  cbn [reconcile_all]. unfold bind.
  pose proof (fun ls1 => reconcile_ok_titled ym track ls ls1 w) as Hstep.
  destruct (reconcile ym track ls w) as [[ls1|e|] w1]; cbn [fst] in *;
    try discriminate.
  intros Hrest. constructor; [now apply (Hstep ls1) | now apply (IH ls1 ls' w1)].
Qed.



Lemma like_yandex_track_total (ym : Client) (ya : ya_track)
    (likes : gset string) (w : World) :
  exists success likes' w',
    like_yandex_track ym ya likes w = (Ok (success, likes'), w')
    /\ w_file w' = w_file w.
Proof.
  unfold like_yandex_track. destruct (build_yandex_like_id ya) as [like_id|].
  - destruct (bool_decide (like_id ∈ likes)).
    + now exists true, likes, w.
    + destruct (like_attempts_spec 3 ym like_id likes w)
        as (k & _ & _ & [(_ & ->) | [(_ & e & _ & _ & ->) | (_ & r & _ & ->)]]);
        do 3 eexists; split; reflexivity.
  - now exists false, likes, w.
Qed.

Lemma record_processed_saves (spotify_id : string) (ls : LoopState) (w : World) :
  exists ls',
    record_processed spotify_id ls w
    = (Ok ls', mk_world (FileJson (JObj (ls_state ls'))) (w_trace w))
    /\ ls_processed_ids ls' = {[spotify_id]} ∪ ls_processed_ids ls
    /\ ls_existing_likes ls' = ls_existing_likes ls
    /\ ls_max_added_dt ls' = ls_max_added_dt ls
    /\ ls_added ls' = ls_added ls
    /\ ls_skipped ls' = ls_skipped ls
    /\ ls_not_found ls' = ls_not_found ls.
Proof.
  unfold record_processed, bind, save_state, ret.
  match goal with |- exists ls', (Ok ?x, _) = _ /\ _ => exists x end.
  split; [reflexivity|]. repeat split.
Qed.

(** The watermark candidate of the loop takes every item into account,
    skipped or not, and never moves back. *)
Lemma reconcile_max_added_dt (ym : Client) (track : liked_track) (ls ls' : LoopState)
    (w : World) :
  fst (reconcile ym track ls w) = Ok ls' ->
  ls_max_added_dt ls'
  = advance (ls_max_added_dt ls) (parse_spotify_ts (lt_added_at track)).
Proof.
  destruct (reconcile ym track ls w) as [res w2] eqn:Hrun. cbn [fst]. intros ->.
  unfold reconcile in Hrun. unfold bind at 1, pure in Hrun.
  destruct (human_title track); cbn [result_of] in Hrun; [|discriminate Hrun].
  cbn [ls_processed_ids ls_state ls_existing_likes ls_added ls_skipped
       ls_not_found] in Hrun.
  destruct (bool_decide (lt_id track ∈ ls_processed_ids ls)).
  { unfold ret in Hrun. now injection Hrun as <- <-. }
  assert (Hsaved : forall ls0 w0,
    record_processed (lt_id track) ls0 w0 = (Ok ls', w2) ->
    ls_max_added_dt ls' = ls_max_added_dt ls0).
  { intros ls0 w0 Hrec.
    destruct (record_processed_saves (lt_id track) ls0 w0)
      as (ls1 & Heq & _ & _ & Hmax & _).
    rewrite Heq in Hrec. now injection Hrec as <- <-. }
  unfold bind at 1 in Hrun.
  destruct (find_best_yandex_match ym track w) as [[[ya|]|e|] w1];
    try discriminate Hrun.
  - unfold bind at 1 in Hrun.
    destruct (like_yandex_track ym ya (ls_existing_likes ls) w1)
      as [[[success likes']|e|] w3]; try discriminate Hrun.
    unfold bind at 1 in Hrun.
    destruct success; [unfold pure in Hrun; destruct (ya_title_line ya);
                       cbn [result_of] in Hrun; [|discriminate Hrun]
                      | unfold ret at 1 in Hrun];
      now rewrite (Hsaved _ _ Hrun).
  - now rewrite (Hsaved _ _ Hrun).
Qed.

Lemma reconcile_all_max_added_dt (ym : Client) (tracks : list liked_track) :
  forall (ls ls' : LoopState) (w : World),
    fst (reconcile_all ym tracks ls w) = Ok ls' ->
    ls_max_added_dt ls'
    = fold_left advance (map (fun t => parse_spotify_ts (lt_added_at t)) tracks)
        (ls_max_added_dt ls).
Proof.
  induction tracks as [|track rest IH]; intros ls ls' w; cbn [reconcile_all].
  - unfold ret. cbn. now intros [= ->].
  - unfold bind.
    pose proof (fun ls1 => reconcile_max_added_dt ym track ls ls1 w) as Hstep.
    destruct (reconcile ym track ls w) as [[ls1|e|] w1]; cbn [fst];
      try discriminate.
    intros Hrest. cbn [map fold_left].
    rewrite <- (Hstep ls1 eq_refl). now apply (IH ls1 ls' w1).
Qed.

Lemma advance_not_below (m : datetime) (added : option datetime) :
  exists m', advance (Some m) added = Some m' /\ dt_leb m m' = true.
Proof.
  unfold advance. destruct added as [a|].
  - destruct (dt_gtb a m) eqn:Hgt.
    + exists a. split; [reflexivity|]. rewrite dt_gtb_leb in Hgt.
      apply negb_true_iff in Hgt. destruct (dt_leb_total m a); congruence.
    + exists m. split; [reflexivity | apply dt_leb_refl].
  - exists m. split; [reflexivity | apply dt_leb_refl].
Qed.

(** ** Runs on which the script departs from its specification *)

(** C4. A run whose only item is already processed and carries an
    [added_at] above the watermark: the item is skipped, the watermark
    candidate of the loop advances to the item's [added_at], and nothing is
    saved, so the state file keeps the old watermark. *)
Theorem skipped_item_does_not_persist_watermark :
  let w := mk_world (state_file ["b"] "2025-01-01T00:00:00Z") [] in
  let env := sample_env [sample_item "b" "B" "2025-01-02T00:00:00Z"] sample_client in
  summary_after (main 2 env w) = Some (mk_summary 1 0 1 0)
  /\ max_added_dt_after (main 2 env w) = Some (mk_datetime 2025 1 2 0 0 0 0)
  /\ file_after (main 2 env w) = state_file ["b"] "2025-01-01T00:00:00Z"
  /\ saved_watermark (file_after (main 2 env w))
     = Some (JStr "2025-01-01T00:00:00Z").
Proof. vm_compute. repeat split. Qed.

(** C2. A run that reconciles a new item and then skips an already processed
    item with a later [added_at]: the last save happened at the new item, so
    the saved watermark is that item's [added_at], below the maximum over
    the items the run considered. *)
Theorem saved_watermark_misses_trailing_skipped_item :
  let w := mk_world (state_file ["a"; "b"] "2025-01-01T00:00:00Z") [] in
  let env :=
    sample_env [sample_item "b" "B" "2025-01-03T00:00:00Z";
                sample_item "c" "C" "2025-01-02T00:00:00Z";
                sample_item "a" "A" "2025-01-01T00:00:00Z"] sample_client in
  summary_after (main 4 env w) = Some (mk_summary 2 1 1 0)
  /\ max_added_dt_after (main 4 env w) = Some (mk_datetime 2025 1 3 0 0 0 0)
  /\ saved_watermark (file_after (main 4 env w))
     = Some (JStr "2025-01-02T00:00:00Z").
Proof. vm_compute. repeat split. Qed.

(** C5. A state file that holds JSON which is not an object: [load_state]
    raises, and the run ends with exit status 1. *)
Theorem load_state_raises_on_non_object :
  let w := mk_world (FileJson (JArr [])) [] in
  let env := sample_env [] sample_client in
  load_state w = (Raise AttributeError, w)
  /\ main 1 env w = (Raise AttributeError, w)
  /\ script 1 env w = (Some 1%Z, w).
Proof. vm_compute. repeat split. Qed.

(** C3. A candidate whose like key is in the snapshot and one of whose
    artists has no name: the like is suppressed, so that the run makes no
    add-like call, and then the lines that print the candidate raise.  The
    item does not join the processed ids, nothing is saved, and the run ends
    with exit status 1.  With the artist named, the same run records the
    item and ends normally. *)
Theorem suppressed_like_is_not_recorded :
  let candidate name :=
    mk_ya_track (Some "1") (Some [mk_ya_album (Some "10")]) (Present "Title")
      (Present [mk_ya_artist name]) in
  let ym name :=
    mk_Client (fun _ => Returns (Some [mk_ya_like (Some "1") (Some "10")]))
      (fun _ _ => search_finds [candidate name])
      (fun _ _ => Returns tt) in
  let env name := sample_env [sample_item "a" "A" "2025-01-01T00:00:00Z"] (ym name) in
  let w := mk_world FileAbsent [] in
  build_yandex_like_id (candidate Null) = Some "1:10"
  /\ "1:10" ∈ default ∅ (match fst (fetch_yandex_liked_ids (ym Null) w) with
                          | Ok likes => Some likes
                          | _ => None
                          end)
  /\ main 2 (env Null) w
     = (Raise TypeError,
        mk_world FileAbsent [EvSearch "Artist — A"; EvSavedTracks 50 0; EvLikesTracks])
  /\ script 2 (env Null) w
     = (Some 1%Z,
        mk_world FileAbsent [EvSearch "Artist — A"; EvSavedTracks 50 0; EvLikesTracks])
  /\ summary_after (main 2 (env (Present "Artist")) w) = Some (mk_summary 1 1 0 0)
  /\ file_after (main 2 (env (Present "Artist")) w)
     = state_file ["a"] "2025-01-01T00:00:00Z"
  /\ w_trace (snd (main 2 (env (Present "Artist")) w))
     = [EvSearch "Artist — A"; EvSavedTracks 50 0; EvLikesTracks].
Proof.
  intros candidate ym env w. split; [reflexivity|]. split.
  - cbn. apply elem_of_union_l. now apply elem_of_singleton.
  - vm_compute. repeat split.
Qed.

(** C7. A search that raises a network error other than a timeout: the
    exception leaves [main] at the first item, the second item is never
    reconciled, nothing is saved, and the process exits with status 1.  The
    same error raised by the add-like call is absorbed: both items are
    marked processed and the run ends normally. *)
Theorem search_error_aborts_run :
  let library :=
    [sample_item "b" "B" "2025-01-02T00:00:00Z";
     sample_item "a" "A" "2025-01-01T00:00:00Z"] in
  let env := sample_env library failing_search_client in
  let failing_like_client :=
    mk_Client (fun _ => Returns (Some []))
      (fun _ _ => search_finds [sample_candidate "1" "10"])
      (fun _ _ => Raises (OtherError "NetworkError")) in
  let w := mk_world FileAbsent [] in
  main 3 env w
  = (Raise (OtherError "NetworkError"),
     mk_world FileAbsent [EvSearch "Artist — A"; EvSavedTracks 50 0; EvLikesTracks])
  /\ script 3 env w
     = (Some 1%Z,
        mk_world FileAbsent [EvSearch "Artist — A"; EvSavedTracks 50 0; EvLikesTracks])
  /\ ~ (exists r w', main 3 env w = (Ok r, w'))
  /\ summary_after (main 3 (sample_env library failing_like_client) w)
     = Some (mk_summary 2 0 0 0)
  /\ file_after (main 3 (sample_env library failing_like_client) w)
     = state_file ["a"; "b"] "2025-01-02T00:00:00Z".
Proof.
  intros library env failing_like_client w.
  assert (Hmain :
    main 3 env w
    = (Raise (OtherError "NetworkError"),
       mk_world FileAbsent [EvSearch "Artist — A"; EvSavedTracks 50 0; EvLikesTracks]))
    by (vm_compute; reflexivity).
  split; [exact Hmain|]. split; [unfold script; now rewrite Hmain|].
  split; [|vm_compute; split; reflexivity].
  intros (r & w' & Hok). rewrite Hmain in Hok. discriminate Hok.
Qed.

(** What [load_state] does on the other contents: a missing or unreadable
    file gives the default state, and an object gives a dictionary whose
    processed ids are strings, those that were strings being kept as they
    are. *)
Lemma load_state_recovers (w : World) :
  match w_file w with
  | FileAbsent | FileUnreadable => load_state w = (Ok STATE_DEFAULT, w)
  | FileJson (JObj data) =>
      exists state ids,
        load_state w = (Ok state, w)
        /\ dict_get state "processed_spotify_ids" = Some (JArr (map JStr ids))
        /\ forall l,
             dict_get data "processed_spotify_ids" = Some (JArr l) ->
             ids = map py_str l
  | FileJson _ => load_state w = (Raise AttributeError, w)
  end.
Proof.
  unfold load_state. destruct (w_file w) as [| |v]; try reflexivity.
  destruct v; try reflexivity.
  eexists.
  exists (map py_str
            match dict_get (fold_left (fun d kv => dict_setdefault d (fst kv) (snd kv))
                              STATE_DEFAULT fields) "processed_spotify_ids" with
            | Some (JArr l) => l
            | _ => []
            end).
  split; [reflexivity|]. split.
  - rewrite dict_get_set, String.eqb_refl. now rewrite map_map.
  - intros l Hl. cbn [fold_left STATE_DEFAULT fst snd].
    rewrite dict_get_setdefault_other by discriminate.
    rewrite dict_get_setdefault_same, Hl. reflexivity.
Qed.

(** * Further properties *)

Set Warnings "-clear-no-such-hyp".

(** ** Timestamps *)

Lemma ord_chr (z : Z) : (0 <= z < 256)%Z -> ord (chr z) = z.
Proof.
  intros Hz. unfold ord, chr. rewrite N_ascii_embedding; [apply Z2N.id; lia|].
  apply N2Z.inj_lt. rewrite Z2N.id by lia. exact (proj2 Hz).
Qed.

Lemma digit_char_digit (k : Z) :
  (0 <= k <= 9)%Z ->
  is_digit (digit_char k) = true /\ (ord (digit_char k) - 48)%Z = k.
Proof.
  intros Hk. unfold is_digit, digit_char. rewrite ord_chr by lia. split; [|lia].
  apply andb_true_intro. split; apply Z.leb_le; lia.
Qed.

Lemma fmt02_digits (n : Z) :
  (0 <= n <= 99)%Z ->
  exists a b,
    fmt02 n = String a (String b "")
    /\ is_digit a = true /\ is_digit b = true /\ digit2 a b = n.
Proof.
  intros Hn. unfold fmt02.
  assert (Ha : (0 <= n / 10 mod 10 <= 9)%Z) by (Z.div_mod_to_equations; lia).
  assert (Hb : (0 <= n mod 10 <= 9)%Z) by (Z.div_mod_to_equations; lia).
  destruct (digit_char_digit _ Ha) as [Hda Hva].
  destruct (digit_char_digit _ Hb) as [Hdb Hvb].
  eexists _, _. split; [reflexivity|]. split; [exact Hda|]. split; [exact Hdb|].
  unfold digit2. rewrite Hva, Hvb. Z.div_mod_to_equations. lia.
Qed.

Lemma fmt04_digits (n : Z) :
  (0 <= n <= 9999)%Z ->
  exists a b c d,
    fmt04 n = String a (String b (String c (String d "")))
    /\ is_digit a = true /\ is_digit b = true
    /\ is_digit c = true /\ is_digit d = true
    /\ (100 * digit2 a b + digit2 c d)%Z = n.
Proof.
  intros Hn. unfold fmt04, fmt02.
  assert (Ha : (0 <= n / 1000 mod 10 <= 9)%Z) by (Z.div_mod_to_equations; lia).
  assert (Hb : (0 <= n / 100 mod 10 <= 9)%Z) by (Z.div_mod_to_equations; lia).
  assert (Hc : (0 <= n / 10 mod 10 <= 9)%Z) by (Z.div_mod_to_equations; lia).
  assert (Hd : (0 <= n mod 10 <= 9)%Z) by (Z.div_mod_to_equations; lia).
  destruct (digit_char_digit _ Ha) as [Hda Hva].
  destruct (digit_char_digit _ Hb) as [Hdb Hvb].
  destruct (digit_char_digit _ Hc) as [Hdc Hvc].
  destruct (digit_char_digit _ Hd) as [Hdd Hvd].
  eexists _, _, _, _. split; [reflexivity|]. repeat (split; [assumption|]).
  unfold digit2. rewrite Hva, Hvb, Hvc, Hvd. Z.div_mod_to_equations. lia.
Qed.

Lemma parse_spotify_ts_fields (y1 y2 y3 y4 m1 m2 d1 d2 h1 h2 n1 n2 s1 s2 : ascii) :
  forallb is_digit [y1; y2; y3; y4; m1; m2; d1; d2; h1; h2; n1; n2; s1; s2] = true ->
  check_date_fields (100 * digit2 y1 y2 + digit2 y3 y4) (digit2 m1 m2) (digit2 d1 d2)
  = true ->
  check_time_fields (digit2 h1 h2) (digit2 n1 n2) (digit2 s1 s2) = true ->
  parse_spotify_ts
    (Some (String y1 (String y2 (String y3 (String y4 (String "-"
      (String m1 (String m2 (String "-" (String d1 (String d2 (String "T"
      (String h1 (String h2 (String ":" (String n1 (String n2 (String ":"
      (String s1 (String s2 "Z"))))))))))))))))))))
  = Some (mk_datetime (100 * digit2 y1 y2 + digit2 y3 y4) (digit2 m1 m2)
            (digit2 d1 d2) (digit2 h1 h2) (digit2 n1 n2) (digit2 s1 s2) 0).
Proof.
  intros Hdigits Hdate Htime. cbn [forallb] in Hdigits.
  repeat match goal with
         | E : _ && _ = true |- _ => apply andb_prop in E as [? ?]
         end.
  unfold parse_spotify_ts, fromisoformat_utc.
  match goal with
  | |- context [endswith ?s "Z"] =>
      replace (endswith s "Z") with true by reflexivity;
      let t := eval cbv in (drop_last s +:+ "+00:00") in
      change (drop_last s +:+ "+00:00") with t
  end.
  cbv beta iota zeta. unfold parse_iso_utc.
  rewrite parse_digits_4 by assumption. cbn [mbind option_bind].
  do 5 (rewrite expect_same; cbn [mbind option_bind];
        rewrite parse_digits_2 by assumption; cbn [mbind option_bind]).
  change ("+00:00" =? "+00:00") with true.
  rewrite Hdate, Htime. reflexivity.
Qed.

(** X1. For every datetime in UTC, that is, every aware datetime whose
    [tzinfo] is [timezone.utc], as [parse_spotify_ts] returns them and as
    [main] hands them to [format_spotify_ts], with fields that the
    [datetime] constructor accepts: [format_spotify_ts] gives a well-formed
    timestamp of the form [YYYY-MM-DDTHH:MM:SSZ], and parsing it gives the
    datetime back with its microseconds cut off.  Naive datetimes and
    datetimes in other zones are outside the [datetime] record. *)
Theorem parse_format_roundtrip (d : datetime) :
  valid_datetime d = true ->
  exists s,
    format_spotify_ts (Some d) = Some s
    /\ is_spotify_ts s = true
    /\ parse_spotify_ts (Some s) = Some (replace_microsecond0 d).
Proof.
  unfold valid_datetime, check_date_fields, check_time_fields.
  destruct d as [y mo dy h mi sec us]. cbn [dt_year dt_month dt_day dt_hour
    dt_minute dt_second dt_microsecond]. intros Hvalid.
  repeat match goal with
         | E : _ && _ = true |- _ => apply andb_prop in E as [? ?]
         end.
  repeat match goal with
         | E : (_ <=? _)%Z = true |- _ => apply Z.leb_le in E
         end.
  assert (Hdim : (days_in_month y mo <= 31)%Z).
  { unfold days_in_month.
    repeat match goal with
           | |- context [match ?x with _ => _ end] => destruct x
           end; lia. }
  destruct (fmt04_digits y ltac:(lia))
    as (y1 & y2 & y3 & y4 & Hy & Hy1 & Hy2 & Hy3 & Hy4 & Hyv).
  destruct (fmt02_digits mo ltac:(lia)) as (m1 & m2 & Hm & Hm1 & Hm2 & Hmv).
  destruct (fmt02_digits dy ltac:(lia)) as (d1 & d2 & Hd & Hd1 & Hd2 & Hdv).
  destruct (fmt02_digits h ltac:(lia)) as (h1 & h2 & Hh & Hh1 & Hh2 & Hhv).
  destruct (fmt02_digits mi ltac:(lia)) as (n1 & n2 & Hn & Hn1 & Hn2 & Hnv).
  destruct (fmt02_digits sec ltac:(lia)) as (s1 & s2 & Hs & Hs1 & Hs2 & Hsv).
  assert (Hdigits :
    forallb is_digit [y1; y2; y3; y4; m1; m2; d1; d2; h1; h2; n1; n2; s1; s2]
    = true).
  { cbn [forallb].
    rewrite Hy1, Hy2, Hy3, Hy4, Hm1, Hm2, Hd1, Hd2, Hh1, Hh2, Hn1, Hn2, Hs1, Hs2.
    reflexivity. }
  assert (Hdate :
    check_date_fields (100 * digit2 y1 y2 + digit2 y3 y4) (digit2 m1 m2)
      (digit2 d1 d2) = true).
  { rewrite Hyv, Hmv, Hdv. unfold check_date_fields.
    repeat (apply andb_true_intro; split); apply Z.leb_le; lia. }
  assert (Htime :
    check_time_fields (digit2 h1 h2) (digit2 n1 n2) (digit2 s1 s2) = true).
  { rewrite Hhv, Hnv, Hsv. unfold check_time_fields.
    repeat (apply andb_true_intro; split); apply Z.leb_le; lia. }
  exists (String y1 (String y2 (String y3 (String y4 (String "-"
    (String m1 (String m2 (String "-" (String d1 (String d2 (String "T"
    (String h1 (String h2 (String ":" (String n1 (String n2 (String ":"
    (String s1 (String s2 "Z"))))))))))))))))))).
  split; [|split].
  - unfold format_spotify_ts, isoformat, replace_microsecond0, str_replace.
    cbn [dt_year dt_month dt_day dt_hour dt_minute dt_second].
    rewrite Hy, Hm, Hd, Hh, Hn, Hs. cbv [String.append].
    repeat (rewrite replace_skip
              by (first [ apply digit_not_plus; assumption | discriminate ])).
    reflexivity.
  - unfold is_spotify_ts. cbn [list_ascii_of_string]. rewrite Hdigits, Hdate, Htime.
    reflexivity.
  - rewrite (parse_spotify_ts_fields _ _ _ _ _ _ _ _ _ _ _ _ _ _ Hdigits Hdate Htime).
    unfold replace_microsecond0.
    cbn [dt_year dt_month dt_day dt_hour dt_minute dt_second].
    now rewrite Hyv, Hmv, Hdv, Hhv, Hnv, Hsv.
Qed.

Lemma append_cons (c : ascii) (b s : string) :
  String c b +:+ s = String c (b +:+ s).
Proof. reflexivity. Qed.

Lemma length_append (b s : string) :
  String.length (b +:+ s) = String.length b + String.length s.
Proof.
  induction b as [|c b IH]; [reflexivity|].
  rewrite append_cons. cbn [String.length]. now rewrite IH.
Qed.

Lemma substring_append_skip (b s : string) (k n : nat) :
  String.substring (String.length b + k) n (b +:+ s) = String.substring k n s.
Proof.
  induction b as [|c b IH]; [reflexivity|].
  rewrite append_cons. cbn [String.length Nat.add String.substring]. exact IH.
Qed.

Lemma substring_append_take (b s : string) :
  String.substring 0 (String.length b) (b +:+ s) = b.
Proof.
  induction b as [|c b IH].
  - change ("" +:+ s) with s. now destruct s.
  - rewrite append_cons. cbn [String.length String.substring]. now rewrite IH.
Qed.

Lemma endswith_append (b s suffix : string) :
  String.length suffix = String.length s ->
  endswith (b +:+ s) suffix = String.eqb s suffix.
Proof.
  intros Hlen. unfold endswith. rewrite length_append, Hlen.
  replace (String.length b + String.length s - String.length s)
    with (String.length b + 0) by lia.
  rewrite substring_append_skip.
  replace (String.length s <=? String.length b + String.length s)%nat with true
    by (symmetry; apply Nat.leb_le; lia).
  cbn [andb]. f_equal. clear. induction s as [|c s IH]; cbn; [reflexivity|].
  now rewrite IH.
Qed.

(** X2. The suffix [Z] stands for the offset [+00:00]: a string that ends in
    [Z] is parsed exactly as the string with [+00:00] in its place, whatever
    comes before the suffix. *)
Theorem z_suffix_is_utc_offset (body : string) :
  parse_spotify_ts (Some (body +:+ "Z"))
  = parse_spotify_ts (Some (body +:+ "+00:00")).
Proof.
  assert (HZ : endswith (body +:+ "Z") "Z" = true)
    by (now rewrite endswith_append).
  assert (Hcut : drop_last (body +:+ "Z") = body).
  { unfold drop_last. rewrite length_append. cbn [String.length].
    replace (String.length body + 1 - 1) with (String.length body) by lia.
    apply substring_append_take. }
  assert (Hoff : endswith (body +:+ "+00:00") "Z" = false).
  { change (body +:+ "+00:00") with (body +:+ ("+00:0" +:+ "0")).
    replace (body +:+ "+00:0" +:+ "0") with ((body +:+ "+00:0") +:+ "0").
    - now rewrite endswith_append.
    - clear. induction body as [|c b IH]; [reflexivity|].
      rewrite !append_cons. now rewrite IH. }
  unfold parse_spotify_ts. rewrite HZ, Hoff, Hcut.
  destruct body as [|c b]; reflexivity.
Qed.

(** ** The persisted state *)

Lemma dict_set_same (d : dict) (k : string) (v : json) :
  dict_get d k = Some v -> dict_set d k v = d.
Proof.
  induction d as [|[k0 v0] rest IH]; cbn [dict_get dict_set]; [discriminate|].
  destruct (String.eqb_spec k k0) as [->|Hk].
  - now intros [= ->].
  - intros Hget. now rewrite IH.
Qed.

Lemma map_py_str_strings (l : list json) :
  forallb is_JStr l = true -> map (fun x => JStr (py_str x)) l = l.
Proof.
  induction l as [|x l IH]; [reflexivity|]. cbn [forallb map].
  intros H. apply andb_prop in H as [Hx Hl]. rewrite (IH Hl).
  now destruct x.
Qed.

Lemma forallb_is_JStr_map (l : list json) :
  forallb is_JStr (map (fun x => JStr (py_str x)) l) = true.
Proof. induction l as [|x l IH]; [reflexivity|]. exact IH. Qed.

Lemma load_state_repairs (data : dict) (trace : list event) :
  exists state,
    load_state (mk_world (FileJson (JObj data)) trace)
    = (Ok state, mk_world (FileJson (JObj data)) trace)
    /\ dict_get state "processed_spotify_ids"
       = Some (JArr (map (fun x => JStr (py_str x))
                       match dict_get data "processed_spotify_ids" with
                       | Some (JArr l) => l
                       | _ => []
                       end))
    /\ dict_get state "last_spotify_added_at"
       = Some (default JNull (dict_get data "last_spotify_added_at"))
    /\ (forall k,
          k <> "processed_spotify_ids" -> k <> "last_spotify_added_at" ->
          dict_get state k = dict_get data k)
    /\ well_formed_state state = true.
Proof.
  unfold load_state. cbn [w_file fold_left STATE_DEFAULT fst snd].
  eexists. split; [reflexivity|].
  assert (Hids :
    dict_get
      (dict_setdefault
         (dict_setdefault data "processed_spotify_ids" (JArr []))
         "last_spotify_added_at" JNull) "processed_spotify_ids"
    = Some (default (JArr []) (dict_get data "processed_spotify_ids"))).
  { rewrite dict_get_setdefault_other by discriminate.
    apply dict_get_setdefault_same. }
  assert (Hlast :
    dict_get
      (dict_setdefault
         (dict_setdefault data "processed_spotify_ids" (JArr []))
         "last_spotify_added_at" JNull) "last_spotify_added_at"
    = Some (default JNull (dict_get data "last_spotify_added_at"))).
  { rewrite dict_get_setdefault_same.
    now rewrite dict_get_setdefault_other by discriminate. }
  assert (Hlist :
    match default (JArr []) (dict_get data "processed_spotify_ids") with
    | JArr l => l
    | _ => []
    end
    = match dict_get data "processed_spotify_ids" with
      | Some (JArr l) => l
      | _ => []
      end).
  { now destruct (dict_get data "processed_spotify_ids") as [[]|]. }
  split; [|split; [|split]].
  - rewrite dict_get_set, String.eqb_refl, Hids. cbv beta iota. now rewrite Hlist.
  - rewrite dict_get_set. cbn [String.eqb Ascii.eqb Bool.eqb]. exact Hlast.
  - intros k Hk1 Hk2. rewrite dict_get_set.
    destruct (String.eqb_spec k "processed_spotify_ids"); [contradiction|].
    now rewrite !dict_get_setdefault_other.
  - unfold well_formed_state. rewrite dict_get_set, String.eqb_refl.
    rewrite forallb_is_JStr_map. rewrite dict_get_set.
    cbn [String.eqb Ascii.eqb Bool.eqb]. now rewrite Hlast.
Qed.

(** X3. On a state file that holds a JSON object, [load_state] does not
    raise and repairs the object: the processed ids become the strings of
    the stored entries, or the empty list when the stored value is not a
    list; the watermark is the stored value, or null when the key is
    missing; every other key is kept as it is. *)
Theorem load_state_normalises (data : dict) (trace : list event) :
  exists state,
    load_state (mk_world (FileJson (JObj data)) trace)
    = (Ok state, mk_world (FileJson (JObj data)) trace)
    /\ dict_get state "processed_spotify_ids"
       = Some (JArr (map (fun x => JStr (py_str x))
                       match dict_get data "processed_spotify_ids" with
                       | Some (JArr l) => l
                       | _ => []
                       end))
    /\ dict_get state "last_spotify_added_at"
       = Some (default JNull (dict_get data "last_spotify_added_at"))
    /\ (forall k,
          k <> "processed_spotify_ids" -> k <> "last_spotify_added_at" ->
          dict_get state k = dict_get data k)
    /\ well_formed_state state = true.
Proof. apply load_state_repairs. Qed.

Lemma load_after_save (state : dict) (w : World) :
  well_formed_state state = true ->
  load_state (snd (save_state state w)) = (Ok state, snd (save_state state w)).
Proof.
  unfold well_formed_state. intros H. apply andb_prop in H as [Hids Hlast].
  destruct (dict_get state "processed_spotify_ids") as [[| | | | |l|]|] eqn:Hget;
    try discriminate Hids.
  destruct (dict_get state "last_spotify_added_at") as [v|] eqn:Hget';
    [|discriminate Hlast].
  assert (Hdefaults :
    fold_left (fun d kv => dict_setdefault d (fst kv) (snd kv)) STATE_DEFAULT state
    = state).
  { cbn [fold_left STATE_DEFAULT fst snd]. unfold dict_setdefault at 2.
    rewrite Hget. unfold dict_setdefault. now rewrite Hget'. }
  unfold save_state, load_state. cbn [snd w_file]. rewrite Hdefaults, Hget.
  rewrite (map_py_str_strings _ Hids). now rewrite (dict_set_same _ _ _ Hget).
Qed.

Lemma load_state_well_formed (w0 : World) (loaded : dict) :
  fst (load_state w0) = Ok loaded -> well_formed_state loaded = true.
Proof.
  destruct w0 as [file trace]. unfold load_state. cbn [w_file].
  destruct file as [| |v]; try (intros [= <-]; reflexivity).
  destruct v; try discriminate.
  destruct (load_state_repairs fields trace) as (state' & Hload & _ & _ & _ & Hwf').
  unfold load_state in Hload. cbn [w_file] in Hload. rewrite Hload.
  now intros [= <-].
Qed.

(** X4. Saving and loading are inverse on the states of a run: a state
    whose processed ids are a list of strings and whose watermark key is
    present is loaded back from the file it was saved to exactly as it
    was, and every state that [load_state] returns is of this kind. *)
Theorem save_load_roundtrip (state : dict) (w : World) :
  well_formed_state state = true ->
  load_state (snd (save_state state w)) = (Ok state, snd (save_state state w))
  /\ forall w0 loaded, load_state w0 = (Ok loaded, w0) -> well_formed_state loaded = true.
Proof.
  intros Hwf. split; [now apply load_after_save|].
  intros w0 loaded Hload. apply (load_state_well_formed w0). now rewrite Hload.
Qed.

(** ** The effects of one iteration *)

Lemma after_timeouts_events (ev : event) (k : nat) (h : list event) :
  exists evs,
    after_timeouts ev k h = evs ++ h
    /\ Forall (fun e => e = ev \/ e = EvSleep 3) evs
    /\ (0 < k -> In ev evs).
Proof.
  induction k as [|k (evs & Heq & Hall & Hin)]; cbn [after_timeouts].
  - exists []. split; [reflexivity|]. split; [constructor | lia].
  - exists (EvSleep 3 :: ev :: evs). rewrite Heq. split; [reflexivity|].
    split; [|intros _; right; now left].
    constructor; [now right|]. constructor; [now left | exact Hall].
Qed.

Lemma find_best_yandex_match_effects (ym : Client) (track : liked_track)
    (query : string) (w : World) :
  search_query track = Returns query ->
  exists evs,
    snd (find_best_yandex_match ym track w)
    = mk_world (w_file w) (evs ++ w_trace w)
    /\ Forall (search_event track) evs
    /\ In (EvSearch query) evs
    /\ fst (find_best_yandex_match ym track w) <> OutOfFuel
    /\ fst (find_best_yandex_match ym track w) <> Raise TimedOutError.
Proof.
  intros Hquery.
  assert (Hev : forall evs,
    Forall (fun e => e = EvSearch query \/ e = EvSleep 3) evs ->
    Forall (search_event track) evs).
  { intros evs Hall. eapply Forall_impl; [exact Hall|].
    intros ev [->| ->]; [left; now exists query | now right]. }
  assert (Hfirst : search_event track (EvSearch query)) by (left; now exists query).
  unfold find_best_yandex_match. unfold bind at 1 3 5, pure. rewrite Hquery.
  cbn [result_of]. unfold bind.
  destruct (search_attempts_spec 3 ym query w) as (k & Hk & _ & Hend).
  destruct (after_timeouts_events (EvSearch query) k (w_trace w))
    as (evs & Hevs & Hall & Hin).
  rewrite Hevs in Hend.
  destruct Hend as [(Hk3 & ->) | [(_ & e & He & _ & ->) | (_ & r & _ & ->)]].
  - exists evs. cbn [fst snd]. repeat split; try discriminate.
    + now apply Hev.
    + apply Hin. lia.
  - exists (EvSearch query :: evs). cbn [fst snd].
    repeat split; try discriminate.
    + constructor; [exact Hfirst | now apply Hev].
    + now left.
    + congruence.
  - exists (EvSearch query :: evs).
    destruct (first_result r); cbn [fst snd ret]; repeat split; try discriminate;
      try (now left);
      (constructor; [exact Hfirst | now apply Hev]).
Qed.

Lemma like_yandex_track_effects (ym : Client) (ya : ya_track)
    (likes : gset string) (w : World) :
  exists success likes' evs,
    like_yandex_track ym ya likes w
    = (Ok (success, likes'), mk_world (w_file w) (evs ++ w_trace w))
    /\ Forall (like_event likes) evs
    /\ likes ⊆ likes'
    /\ (forall like_id, like_id ∈ likes' -> like_id ∉ likes ->
        build_yandex_like_id ya = Some like_id /\ success = true
        /\ In (EvLikesAdd like_id) evs)
    /\ (build_yandex_like_id ya = None -> success = false /\ evs = [])
    /\ (success = true -> exists like_id,
          build_yandex_like_id ya = Some like_id /\ like_id ∈ likes').
Proof.
  unfold like_yandex_track.
  destruct (build_yandex_like_id ya) as [like_id|] eqn:Hbuild.
  - destruct (bool_decide (like_id ∈ likes)) eqn:Hin.
    + apply bool_decide_eq_true in Hin.
      exists true, likes, []. destruct w. repeat split; try done.
      * intros _. now exists like_id.
    + apply bool_decide_eq_false in Hin.
      assert (Hevent : like_event likes (EvLikesAdd like_id))
        by (right; now exists like_id).
      destruct (like_attempts_spec 3 ym like_id likes w) as (k & _ & _ & Hend).
      destruct (after_timeouts_events (EvLikesAdd like_id) k (w_trace w))
        as (evs & Hevs & Hall & _).
      rewrite Hevs in Hend.
      destruct Hend as [(_ & ->) | [(_ & e & _ & _ & ->) | (_ & r & _ & ->)]].
      * exists false, likes, evs. repeat split; try done.
        eapply Forall_impl; [exact Hall|]. intros ev [->| ->]; [assumption | now left].
      * exists false, likes, (EvLikesAdd like_id :: evs). repeat split; try done.
        constructor; [assumption|].
        eapply Forall_impl; [exact Hall|]. intros ev [->| ->]; [assumption | now left].
      * exists true, ({[like_id]} ∪ likes), (EvLikesAdd like_id :: evs).
        split; [reflexivity|]. split; [|split; [|split; [|split]]].
        -- constructor; [assumption|].
           eapply Forall_impl; [exact Hall|].
           intros ev [->| ->]; [assumption | now left].
        -- apply union_subseteq_r.
        -- intros key Hkey Hnew.
           apply elem_of_union in Hkey as [Hkey|Hkey]; [|contradiction].
           apply elem_of_singleton in Hkey. subst key.
           split; [reflexivity|]. split; [reflexivity | now left].
        -- discriminate.
        -- intros _. exists like_id. split; [reflexivity|].
           apply elem_of_union_l. now apply elem_of_singleton.
  - exists false, likes, []. destruct w. repeat split; try done.
Qed.

(** What one iteration does: it raises at once when the title of the item
    cannot be built; it skips a processed item without any effect; or it
    searches and then either lets an exception pass, of the search or of the
    lines that print the candidate after a like that succeeded, or ends with
    the lines that save the state. *)
Lemma reconcile_inv (ym : Client) (track : liked_track) (ls : LoopState) (w : World) :
  let max_added_dt :=
    advance (ls_max_added_dt ls) (parse_spotify_ts (lt_added_at track)) in
  (exists e, human_title track = Raises e /\ reconcile ym track ls w = (Raise e, w))
  \/ ((lt_id track ∈ ls_processed_ids ls)
      /\ reconcile ym track ls w
         = (Ok (mk_loop (ls_processed_ids ls) (ls_state ls) (ls_existing_likes ls)
                  max_added_dt (ls_added ls) (S (ls_skipped ls)) (ls_not_found ls)),
            w))
  \/ ((lt_id track ∉ ls_processed_ids ls)
      /\ exists evs,
           Forall (search_event track) evs
           /\ (exists query, In (EvSearch query) evs)
           /\ ((exists e evl,
                  reconcile ym track ls w
                  = (Raise e, mk_world (w_file w) (evl ++ evs ++ w_trace w))
                  /\ Forall (like_event (ls_existing_likes ls)) evl)
               \/ (exists likes' added' not_found' evl,
                     reconcile ym track ls w
                     = record_processed (lt_id track)
                         (mk_loop (ls_processed_ids ls) (ls_state ls) likes'
                            max_added_dt added' (ls_skipped ls) not_found')
                         (mk_world (w_file w) (evl ++ evs ++ w_trace w))
                     /\ Forall (like_event (ls_existing_likes ls)) evl
                     /\ ls_existing_likes ls ⊆ likes'
                     /\ (forall k, k ∈ likes' -> k ∉ ls_existing_likes ls ->
                         In (EvLikesAdd k) evl)
                     /\ ((added' = ls_added ls
                          /\ not_found' = S (ls_not_found ls))
                         \/ (not_found' = ls_not_found ls
                             /\ (added' = ls_added ls \/ added' = S (ls_added ls))))))).
Proof.
  intros max_added_dt.
  destruct (reconcile ym track ls w) as [res2 w2] eqn:Hrun.
  unfold reconcile in Hrun. fold max_added_dt in Hrun.
  unfold bind at 1, pure in Hrun.
  destruct (human_title track) as [title|e] eqn:Htitle; cbn [result_of] in Hrun.
  2:{ left. exists e. split; [reflexivity | now rewrite <- Hrun]. }
  right.
  cbn [ls_processed_ids ls_state ls_existing_likes ls_added ls_skipped
       ls_not_found] in Hrun.
  destruct (bool_decide (lt_id track ∈ ls_processed_ids ls)) eqn:Hin.
  { apply bool_decide_eq_true in Hin. left. split; [exact Hin|].
    now rewrite <- Hrun. }
  apply bool_decide_eq_false in Hin. right. split; [exact Hin|].
  unfold bind at 1 in Hrun.
  destruct (find_best_yandex_match_effects ym track title w Htitle)
    as (evs & Hworld & Hevs & Hsearch & Hfuel & Htimeout).
  destruct (find_best_yandex_match ym track w) as [res w1].
  cbn [fst snd] in Hworld, Hfuel, Htimeout. subst w1.
  exists evs. split; [exact Hevs|]. split; [now exists title|].
  destruct res as [[ya|]|e|]; [| | |congruence].
  - unfold bind at 1 in Hrun.
    destruct (like_yandex_track_effects ym ya (ls_existing_likes ls)
                (mk_world (w_file w) (evs ++ w_trace w)))
      as (success & likes' & evl & Hlike & Hevl & Hsub & Hnew & _ & _).
    rewrite Hlike in Hrun. cbn [w_file w_trace] in *.
    unfold bind at 1 in Hrun.
    destruct success.
    + unfold pure in Hrun.
      destruct (ya_title_line ya) as [ya_title|e]; cbn [result_of] in Hrun.
      * right. exists likes', (S (ls_added ls)), (ls_not_found ls), evl.
        split; [now rewrite <- Hrun|]. split; [exact Hevl|]. split; [exact Hsub|].
        split; [intros k Hk Hk'; apply (Hnew k Hk Hk')|].
        right. split; [reflexivity | now right].
      * left. exists e, evl. split; [now rewrite <- Hrun | exact Hevl].
    + unfold ret at 1 in Hrun.
      right. exists likes', (ls_added ls), (ls_not_found ls), evl.
      split; [now rewrite <- Hrun|]. split; [exact Hevl|]. split; [exact Hsub|].
      split; [intros k Hk Hk'; apply (Hnew k Hk Hk')|].
      right. split; [reflexivity | now left].
  - right. exists (ls_existing_likes ls), (ls_added ls), (S (ls_not_found ls)), [].
    split; [now rewrite <- Hrun|]. split; [constructor|]. split; [reflexivity|].
    split; [intros k Hk Hk'; contradiction|]. left. now split.
  - left. exists e, []. split; [now rewrite <- Hrun | constructor].
Qed.

(** ** The reconciliation loop *)

Lemma reconcile_ok_inv (ym : Client) (track : liked_track) (ls ls' : LoopState)
    (w : World) :
  fst (reconcile ym track ls w) = Ok ls' ->
  ls_processed_ids ls' = {[lt_id track]} ∪ ls_processed_ids ls
  /\ ls_existing_likes ls ⊆ ls_existing_likes ls'
  /\ ls_max_added_dt ls'
     = advance (ls_max_added_dt ls) (parse_spotify_ts (lt_added_at track))
  /\ ls_added ls <= ls_added ls'
  /\ ls_skipped ls <= ls_skipped ls'
  /\ ls_not_found ls <= ls_not_found ls'
  /\ ls_added ls' + ls_skipped ls' + ls_not_found ls'
     <= S (ls_added ls + ls_skipped ls + ls_not_found ls).
Proof.
  destruct (reconcile_inv ym track ls w)
    as [(e & _ & ->)
       | [(Hin & ->)
         | (Hin & evs & _ & _ & [(e & evl & -> & _)
             | (likes' & added' & nf' & evl & -> & _ & Hsub & _ & Hcount)])]];
    cbn [fst]; [discriminate | | discriminate |].
  - intros [= <-]. cbn. repeat split; try lia; [|reflexivity].
    apply leibniz_equiv. set_solver.
  - rewrite record_processed_eq. cbn [fst]. intros [= <-]. cbn.
    repeat split; try assumption; lia.
Qed.

Lemma reconcile_all_processed_ids (ym : Client) (tracks : list liked_track) :
  forall (ls ls' : LoopState) (w : World),
    fst (reconcile_all ym tracks ls w) = Ok ls' ->
    ls_processed_ids ls'
    = list_to_set (map lt_id tracks) ∪ ls_processed_ids ls.
Proof.
  induction tracks as [|track rest IH]; intros ls ls' w; cbn [reconcile_all].
  - unfold ret. cbn. intros [= <-]. apply leibniz_equiv. set_solver.
  - unfold bind.
    pose proof (fun ls1 => reconcile_ok_inv ym track ls ls1 w) as Hstep.
    destruct (reconcile ym track ls w) as [[ls1|e|] w1]; cbn [fst];
      try discriminate.
    intros Hrest. destruct (Hstep ls1 eq_refl) as (Hids & _).
    rewrite (IH ls1 ls' w1 Hrest), Hids. cbn [map list_to_set].
    apply leibniz_equiv. set_solver.
Qed.

(** X5. When the loop over the new items ends normally, the processed ids
    are the ids it started with together with the ids of all the items of
    the run, whatever became of each item. *)
Theorem processed_ids_after_loop (ym : Client) (tracks : list liked_track) :
  forall (ls ls' : LoopState) (w : World),
    fst (reconcile_all ym tracks ls w) = Ok ls' ->
    ls_processed_ids ls'
    = list_to_set (map lt_id tracks) ∪ ls_processed_ids ls.
Proof. apply reconcile_all_processed_ids. Qed.

(** X6. The counters of the loop only grow, and each item adds at most one
    to their sum: added, skipped and not found together never exceed the
    number of items reconciled. *)
Theorem counters_after_loop (ym : Client) (tracks : list liked_track) :
  forall (ls ls' : LoopState) (w : World),
    fst (reconcile_all ym tracks ls w) = Ok ls' ->
    ls_added ls <= ls_added ls'
    /\ ls_skipped ls <= ls_skipped ls'
    /\ ls_not_found ls <= ls_not_found ls'
    /\ ls_added ls' + ls_skipped ls' + ls_not_found ls'
       <= length tracks + (ls_added ls + ls_skipped ls + ls_not_found ls).
Proof.
  induction tracks as [|track rest IH]; intros ls ls' w; cbn [reconcile_all].
  - unfold ret. cbn. intros [= <-]. lia.
  - unfold bind.
    pose proof (fun ls1 => reconcile_ok_inv ym track ls ls1 w) as Hstep.
    destruct (reconcile ym track ls w) as [[ls1|e|] w1]; cbn [fst];
      try discriminate.
    intros Hrest. destruct (Hstep ls1 eq_refl) as (_ & _ & _ & Ha & Hs & Hn & Hsum).
    destruct (IH ls1 ls' w1 Hrest) as (Ha' & Hs' & Hn' & Hsum').
    cbn [length]. lia.
Qed.

(** A run of [main] that ends with a summary went through all its phases:
    both clients were built, the state was loaded, the snapshot and the new
    items were fetched, and the loop ended normally. *)
Lemma main_inv (fuel : nat) (env : Env) (w w' : World) (summary : Summary)
    (ls' : LoopState) :
  main fuel env w = (Ok (Some (summary, ls')), w') ->
  exists sp ym state likes last tracks w1,
    init_spotify_client env w = (Ok sp, w)
    /\ init_yandex_client env w = (Ok ym, w)
    /\ load_state w = (Ok state, w)
    /\ fetch_yandex_liked_ids ym w
       = (Ok likes, mk_world (w_file w) (EvLikesTracks :: w_trace w))
    /\ watermark_of state = Returns last
    /\ fetch_spotify_liked_tracks fuel sp last 50
         (mk_world (w_file w) (EvLikesTracks :: w_trace w))
       = (Ok tracks, w1)
    /\ tracks <> []
    /\ reconcile_all ym tracks
         (mk_loop (processed_ids_of state) state likes (parse_spotify_ts last) 0 0 0)
         w1
       = (Ok ls', w')
    /\ summary
       = mk_summary (length tracks) (ls_added ls') (ls_skipped ls')
           (ls_not_found ls').
Proof.
  intros Hmain. unfold main in Hmain. unfold bind at 1 in Hmain.
  pose proof (init_spotify_client_world env w) as Hw1.
  destruct (init_spotify_client env w) as [[sp|e|] w1]; cbn [snd] in Hw1; subst w1;
    try discriminate Hmain.
  unfold bind at 1 in Hmain.
  pose proof (init_yandex_client_world env w) as Hw2.
  destruct (init_yandex_client env w) as [[ym|e|] w2]; cbn [snd] in Hw2; subst w2;
    try discriminate Hmain.
  unfold bind at 1 in Hmain.
  pose proof (load_state_world w) as Hw3.
  destruct (load_state w) as [[state|e|] w3]; cbn [snd] in Hw3; subst w3;
    try discriminate Hmain.
  unfold bind at 1 in Hmain.
  destruct (fetch_yandex_liked_ids_ok ym w) as (likes & Hlikes).
  rewrite Hlikes in Hmain. unfold bind at 1, pure in Hmain.
  destruct (watermark_of state) as [last|e] eqn:Hlast; cbn [result_of] in Hmain;
    [|discriminate Hmain].
  unfold bind at 1 in Hmain.
  destruct (fetch_spotify_liked_tracks fuel sp last 50 _) as [[tracks|e|] w4]
    eqn:Hfetch; try discriminate Hmain.
  destruct tracks as [|track rest]; [discriminate Hmain|].
  unfold bind in Hmain.
  destruct (reconcile_all ym (track :: rest) _ w4) as [[ls1|e|] w5] eqn:Hloop;
    try discriminate Hmain.
  unfold ret in Hmain. injection Hmain as <- <- <-.
  exists sp, ym, state, likes, last, (track :: rest), w4.
  split; [reflexivity|]. split; [reflexivity|]. split; [reflexivity|].
  split; [exact Hlikes|]. split; [exact Hlast|]. split; [exact Hfetch|].
  split; [discriminate|]. split; [exact Hloop | reflexivity].
Qed.

(** ** The change detector on any source *)

Lemma collect_ids (items : list sp_item) (ts : list liked_track) :
  collect items = Returns ts -> Forall (fun t => lt_id t <> "") ts.
Proof.
  revert ts. induction items as [|item rest IH]; intros ts; cbn [collect].
  - intros [= <-]. constructor.
  - destruct (built item) as [[t|e]|] eqn:Hb; [| discriminate | apply IH].
    destruct (collect rest) as [ts'|e]; [|discriminate]. intros [= <-].
    constructor; [|now apply IH].
    apply (kept_id item). unfold kept. now rewrite Hb.
Qed.

Lemma fetch_pages_effects (sp : Spotify) (since : option datetime) (limit : nat) :
  forall (fuel offset : nat) (acc : list liked_track) (w : World),
    exists evs,
      snd (fetch_pages fuel sp since limit offset acc w)
      = mk_world (w_file w) (evs ++ w_trace w)
      /\ Forall (page_event limit) evs
      /\ length evs <= fuel
      /\ (forall l, fst (fetch_pages fuel sp since limit offset acc w) = Ok l ->
          exists more, l = acc ++ more /\ Forall (fun t => lt_id t <> "") more).
Proof.
  induction fuel as [|fuel IH]; intros offset acc w.
  { exists []. destruct w. cbn. repeat split; [constructor | lia | discriminate]. }
  cbn [fetch_pages]. unfold bind, call.
  assert (Hone : Forall (page_event limit) [EvSavedTracks limit offset])
    by (repeat constructor; now exists offset).
  destruct (current_user_saved_tracks sp (w_trace w) limit offset) as [page|e];
    cbn [result_of].
  2:{ exists [EvSavedTracks limit offset]. cbn.
      repeat split; [exact Hone | lia | discriminate]. }
  destruct (default [] (page_items page)) as [|item items] eqn:Hitems.
  { exists [EvSavedTracks limit offset]. cbn.
    split; [reflexivity|]. split; [exact Hone|]. split; [lia|].
    intros l [= <-]. exists []. split; [now rewrite app_nil_r | constructor]. }
  rewrite scan_items_spec. unfold pure.
  destruct (collect (before_stop since (item :: items))) as [ts|e] eqn:Hts;
    cbn [result_of].
  2:{ exists [EvSavedTracks limit offset]. cbn [fst snd].
      split; [reflexivity|]. split; [exact Hone|]. split; [cbn; lia | discriminate]. }
  pose proof (collect_ids _ _ Hts) as Hids.
  destruct (existsb (stops since) (item :: items)).
  { exists [EvSavedTracks limit offset]. cbn [fst snd ret].
    split; [reflexivity|]. split; [exact Hone|]. split; [cbn; lia|].
    intros l [= <-]. now exists ts. }
  destruct (length (item :: items) <? limit)%nat.
  { exists [EvSavedTracks limit offset]. cbn [fst snd ret].
    split; [reflexivity|]. split; [exact Hone|]. split; [cbn; lia|].
    intros l [= <-]. now exists ts. }
  destruct (IH (offset + length (item :: items)) (acc ++ ts)
              (mk_world (w_file w) (EvSavedTracks limit offset :: w_trace w)))
    as (evs & Hworld & Hevs & Hlen & Hres).
  exists (evs ++ [EvSavedTracks limit offset]).
  split; [rewrite Hworld; cbn [w_file w_trace]; now rewrite <- app_assoc|].
  split; [apply Forall_app; split; assumption|].
  split; [rewrite length_app; cbn [length]; lia|].
  intros l Hl. destruct (Hres l Hl) as (more & -> & Hmore).
  exists (ts ++ more).
  split; [now rewrite app_assoc|]. apply Forall_app. now split.
Qed.

(** X7. Whatever the source catalog answers, fetching the new items only
    reads: the state file is left as it is and the calls are page requests
    of the source listing, at most one for each iteration allowed.  Every
    track that is returned has a non-empty id, and an exception of the first
    page request is passed on to the caller; a first page without items
    ends the fetch with no track. *)
Theorem fetch_only_reads (fuel : nat) (sp : Spotify) (last_added_at : option string)
    (page_limit : nat) (w : World) :
  exists evs,
    snd (fetch_spotify_liked_tracks fuel sp last_added_at page_limit w)
    = mk_world (w_file w) (evs ++ w_trace w)
    /\ Forall (page_event page_limit) evs
    /\ length evs <= fuel
    /\ (forall tracks,
          fst (fetch_spotify_liked_tracks fuel sp last_added_at page_limit w)
          = Ok tracks ->
          Forall (fun t => lt_id t <> "") tracks)
    /\ (forall e,
          0 < fuel ->
          current_user_saved_tracks sp (w_trace w) page_limit 0 = Raises e ->
          fetch_spotify_liked_tracks fuel sp last_added_at page_limit w
          = (Raise e, mk_world (w_file w) (EvSavedTracks page_limit 0 :: w_trace w)))
    /\ (forall page,
          0 < fuel ->
          current_user_saved_tracks sp (w_trace w) page_limit 0 = Returns page ->
          default [] (page_items page) = [] ->
          fetch_spotify_liked_tracks fuel sp last_added_at page_limit w
          = (Ok [], mk_world (w_file w) (EvSavedTracks page_limit 0 :: w_trace w))).
Proof.
  unfold fetch_spotify_liked_tracks, bind.
  destruct (fetch_pages_effects sp (parse_spotify_ts last_added_at) page_limit
              fuel 0 [] w) as (evs & Hworld & Hevs & Hlen & Hres).
  exists evs. split; [|split; [exact Hevs|split; [exact Hlen|split; [|split]]]].
  - destruct (fetch_pages fuel sp _ page_limit 0 [] w) as [[l|e|] w1];
      cbn [fst snd] in *; exact Hworld.
  - intros tracks.
    destruct (fetch_pages fuel sp _ page_limit 0 [] w) as [[l|e|] w1];
      cbn [fst snd ret] in *; try discriminate.
    intros [= <-]. destruct (Hres l eq_refl) as (more & -> & Hmore).
    cbn [app]. apply Forall_forall. intros t Hin.
    rewrite Forall_forall in Hmore. apply Hmore.
    apply list_elem_of_In. apply list_elem_of_In in Hin. now apply in_rev.
  - intros e Hfuel Hraise. destruct fuel as [|fuel]; [lia|].
    cbn [fetch_pages]. unfold bind, call. rewrite Hraise. reflexivity.
  - intros page Hfuel Hpage Hempty. destruct fuel as [|fuel]; [lia|].
    cbn [fetch_pages]. unfold bind, call. rewrite Hpage. cbn [result_of].
    rewrite Hempty. reflexivity.
Qed.

(** ** The calls of the reconciliation loop *)

Lemma loop_event_mono (likes likes' : gset string) (ev : event) :
  likes ⊆ likes' -> loop_event likes' ev -> loop_event likes ev.
Proof.
  intros Hsub [H | [H | (k & -> & Hk)]]; [now left | right; now left |].
  right. right. exists k. split; [reflexivity|]. intros Hin. apply Hk.
  now apply Hsub.
Qed.

Lemma reconcile_effects (ym : Client) (track : liked_track) (ls : LoopState)
    (w : World) :
  exists evs,
    w_trace (snd (reconcile ym track ls w)) = evs ++ w_trace w
    /\ Forall (loop_event (ls_existing_likes ls)) evs
    /\ (snd (reconcile ym track ls w) = w
        \/ exists query, In (EvSearch query) evs)
    /\ (forall ls',
          fst (reconcile ym track ls w) = Ok ls' ->
          ls_existing_likes ls ⊆ ls_existing_likes ls'
          /\ forall k, k ∈ ls_existing_likes ls' -> k ∉ ls_existing_likes ls ->
             In (EvLikesAdd k) evs).
Proof.
  assert (Hsearch_ev : forall evs,
    Forall (search_event track) evs ->
    Forall (loop_event (ls_existing_likes ls)) evs).
  { intros evs H. eapply Forall_impl; [exact H|].
    intros ev [(query & _ & ->)| ->]; [left; eauto | right; now left]. }
  assert (Hlike_ev : forall evl,
    Forall (like_event (ls_existing_likes ls)) evl ->
    Forall (loop_event (ls_existing_likes ls)) evl).
  { intros evl H. eapply Forall_impl; [exact H|].
    intros ev [->|(k & -> & Hk)]; [right; now left | right; right; eauto]. }
  destruct (reconcile_inv ym track ls w)
    as [(e & _ & ->)
       | [(Hin & ->)
         | (Hin & evs & Hevs & (query & Hsearch) & [(e & evl & -> & Hevl)
             | (likes' & added' & nf' & evl & -> & Hevl & Hsub & Hnew & _)])]].
  - exists []. cbn [fst snd]. split; [reflexivity|]. split; [constructor|].
    split; [now left | discriminate].
  - exists []. cbn [fst snd]. split; [reflexivity|]. split; [constructor|].
    split; [now left|]. intros ls' [= <-]. cbn. split; [reflexivity|].
    intros k Hk Hk'. contradiction.
  - exists (evl ++ evs). cbn [fst snd w_trace]. split; [now rewrite app_assoc|].
    split; [apply Forall_app; split; [now apply Hlike_ev | now apply Hsearch_ev]|].
    split; [right; exists query; apply in_or_app; now right | discriminate].
  - rewrite record_processed_eq. exists (evl ++ evs). cbn [fst snd w_trace].
    split; [now rewrite app_assoc|].
    split; [apply Forall_app; split; [now apply Hlike_ev | now apply Hsearch_ev]|].
    split; [right; exists query; apply in_or_app; now right|].
    intros ls' [= <-]. cbn [ls_existing_likes]. split; [exact Hsub|].
    intros k Hk Hk'. apply in_or_app. left. now apply Hnew.
Qed.

Lemma reconcile_all_effects (ym : Client) (tracks : list liked_track) :
  forall (ls : LoopState) (w : World),
    exists evs,
      w_trace (snd (reconcile_all ym tracks ls w)) = evs ++ w_trace w
      /\ Forall (loop_event (ls_existing_likes ls)) evs
      /\ (snd (reconcile_all ym tracks ls w) = w
          \/ exists query, In (EvSearch query) evs)
      /\ (forall ls',
            fst (reconcile_all ym tracks ls w) = Ok ls' ->
            ls_existing_likes ls ⊆ ls_existing_likes ls'
            /\ forall k, k ∈ ls_existing_likes ls' -> k ∉ ls_existing_likes ls ->
               In (EvLikesAdd k) evs).
Proof.
  induction tracks as [|track rest IH]; intros ls w; cbn [reconcile_all].
  - exists []. cbn. split; [reflexivity|]. split; [constructor|].
    split; [now left|]. intros ls' [= <-]. split; [reflexivity|].
    intros k Hk Hk'. contradiction.
  - unfold bind.
    destruct (reconcile_effects ym track ls w) as (evs1 & Htrace1 & Hall1 & Hfile1 & Hok1).
    destruct (reconcile ym track ls w) as [[ls1|e|] w1]; cbn [fst snd] in *.
    + destruct (Hok1 ls1 eq_refl) as (Hsub1 & Hnew1).
      destruct (IH ls1 w1) as (evs2 & Htrace2 & Hall2 & Hfile2 & Hok2).
      exists (evs2 ++ evs1).
      split; [now rewrite Htrace2, Htrace1, app_assoc|].
      split.
      { apply Forall_app. split; [|exact Hall1].
        eapply Forall_impl; [exact Hall2|]. intros ev.
        now apply loop_event_mono. }
      split.
      { destruct Hfile2 as [Hsame | (q & Hq)].
        - destruct Hfile1 as [Hsame1 | (q & Hq)].
          + left. now rewrite Hsame.
          + right. exists q. apply in_or_app. now right.
        - right. exists q. apply in_or_app. now left. }
      intros ls' Hls'. destruct (Hok2 ls' Hls') as (Hsub2 & Hnew2).
      split; [now transitivity (ls_existing_likes ls1)|].
      intros k Hk Hk'. apply in_or_app.
      destruct (decide (k ∈ ls_existing_likes ls1)) as [Hin1|Hin1].
      * right. now apply Hnew1.
      * left. now apply Hnew2.
    + exists evs1. split; [exact Htrace1|]. split; [exact Hall1|].
      split; [exact Hfile1 | discriminate].
    + exists evs1. split; [exact Htrace1|]. split; [exact Hall1|].
      split; [exact Hfile1 | discriminate].
Qed.

(** X8. During the whole loop, however it ends, the only calls are searches
    and add-like calls (with the sleeps between attempts), and no add-like
    call is made for a key that is in the snapshot the loop started with.
    When the loop ends normally the snapshot has only grown, and every key
    that joined it was the subject of an add-like call of this run. *)
Theorem loop_never_likes_a_snapshot_key (ym : Client) (tracks : list liked_track)
    (ls : LoopState) (w : World) :
  exists evs,
    w_trace (snd (reconcile_all ym tracks ls w)) = evs ++ w_trace w
    /\ Forall (loop_event (ls_existing_likes ls)) evs
    /\ (forall k, k ∈ ls_existing_likes ls -> ~ In (EvLikesAdd k) evs)
    /\ (forall ls',
          fst (reconcile_all ym tracks ls w) = Ok ls' ->
          ls_existing_likes ls ⊆ ls_existing_likes ls'
          /\ forall k, k ∈ ls_existing_likes ls' -> k ∉ ls_existing_likes ls ->
             In (EvLikesAdd k) evs).
Proof.
  destruct (reconcile_all_effects ym tracks ls w) as (evs & Htrace & Hall & _ & Hok).
  exists evs. split; [exact Htrace|]. split; [exact Hall|]. split; [|exact Hok].
  intros k Hk Hin. rewrite Forall_forall in Hall.
  apply list_elem_of_In in Hin.
  destruct (Hall _ Hin) as [(q & Hq) | [Hq | (k' & Hq & Hk')]]; try discriminate.
  injection Hq as <-. contradiction.
Qed.

(** ** The watermark candidate *)

Lemma advance_covers (m : option datetime) (a : datetime) :
  exists q, advance m (Some a) = Some q /\ dt_leb a q = true.
Proof.
  unfold advance. destruct m as [p|].
  - destruct (dt_gtb a p) eqn:Hgt.
    + exists a. split; [reflexivity | apply dt_leb_refl].
    + exists p. split; [reflexivity|]. rewrite dt_gtb_leb in Hgt.
      now apply negb_false_iff in Hgt.
  - exists a. split; [reflexivity | apply dt_leb_refl].
Qed.

Lemma advance_choice (m x : option datetime) :
  advance m x = m \/ (advance m x = x /\ x <> None).
Proof.
  unfold advance. destruct x as [a|]; [|now left].
  destruct m as [p|]; [|right; split; [reflexivity | discriminate]].
  destruct (dt_gtb a p); [right; split; [reflexivity | discriminate] | now left].
Qed.

Lemma fold_advance_bounds (l : list (option datetime)) :
  forall m : option datetime,
    (forall p, m = Some p ->
       exists q, fold_left advance l m = Some q /\ dt_leb p q = true)
    /\ (forall a, In (Some a) l ->
          exists q, fold_left advance l m = Some q /\ dt_leb a q = true)
    /\ (fold_left advance l m = m \/ In (fold_left advance l m) l).
Proof.
  induction l as [|x l IH]; intros m; cbn [fold_left].
  - split; [|split; [intros a []| now left]].
    intros p ->. exists p. split; [reflexivity | apply dt_leb_refl].
  - destruct (IH (advance m x)) as (Hprev & Hitems & Hchoice).
    split; [|split].
    + intros p ->. destruct (advance_not_below p x) as (p' & Hp' & Hle).
      destruct (Hprev p' Hp') as (q & Hq & Hle'). exists q.
      split; [exact Hq | now apply (dt_leb_trans _ _ _ Hle)].
    + intros a [-> | Hin]; [|now apply Hitems].
      destruct (advance_covers m a) as (p' & Hp' & Hle).
      destruct (Hprev p' Hp') as (q & Hq & Hle'). exists q.
      split; [exact Hq | now apply (dt_leb_trans _ _ _ Hle)].
    + destruct Hchoice as [Hsame | Hin]; [|right; now right].
      rewrite Hsame. destruct (advance_choice m x) as [-> | [-> _]];
        [now left | right; now left].
Qed.

(** X9. When the loop ends normally, its watermark candidate is the maximum
    of the watermark it started with and the parsed [added_at] of all the
    items, skipped or not: it is at or above each of them, and it is one of
    them. *)
Theorem watermark_candidate_is_maximum (ym : Client) (tracks : list liked_track)
    (ls ls' : LoopState) (w : World) :
  fst (reconcile_all ym tracks ls w) = Ok ls' ->
  (forall p, ls_max_added_dt ls = Some p ->
     exists m, ls_max_added_dt ls' = Some m /\ dt_leb p m = true)
  /\ (forall t a,
        In t tracks -> parse_spotify_ts (lt_added_at t) = Some a ->
        exists m, ls_max_added_dt ls' = Some m /\ dt_leb a m = true)
  /\ (ls_max_added_dt ls' = ls_max_added_dt ls
      \/ exists t, In t tracks
           /\ ls_max_added_dt ls' = parse_spotify_ts (lt_added_at t)).
Proof.
  intros Hrun. rewrite (reconcile_all_max_added_dt ym tracks ls ls' w Hrun).
  destruct (fold_advance_bounds
              (map (fun t => parse_spotify_ts (lt_added_at t)) tracks)
              (ls_max_added_dt ls)) as (Hprev & Hitems & Hchoice).
  split; [exact Hprev|]. split.
  - intros t a Hin Ha. apply Hitems. rewrite <- Ha.
    apply (in_map (fun t => parse_spotify_ts (lt_added_at t))). exact Hin.
  - destruct Hchoice as [Hsame | Hin]; [now left|]. right.
    apply in_map_iff in Hin as (t & Ht & Hin). exists t. split; [exact Hin|].
    now rewrite Ht.
Qed.

(** ** What a later run finds *)

Lemma forallb_is_JStr_strings (l : list string) :
  forallb is_JStr (map JStr l) = true.
Proof. induction l as [|x l IH]; [reflexivity | exact IH]. Qed.

Lemma state_to_save_well_formed (spotify_id : string) (ls : LoopState) :
  well_formed_state (ls_state ls) = true ->
  well_formed_state (state_to_save spotify_id ls) = true
  /\ processed_ids_of (state_to_save spotify_id ls)
     = {[spotify_id]} ∪ ls_processed_ids ls.
Proof.
  intros Hwf. destruct (state_to_save_spec spotify_id ls) as (Hids & Hlast & _).
  split.
  - unfold well_formed_state in *. rewrite Hids, Hlast, forallb_is_JStr_strings.
    apply andb_prop in Hwf as [_ Hwf].
    now destruct (format_spotify_ts (ls_max_added_dt ls)).
  - unfold processed_ids_of. rewrite Hids.
    cbv beta iota delta [default from_option id str_items].
    rewrite omap_fmap_strings. apply list_to_set_elements_L.
Qed.

(** X10. What an iteration saves is what a later run loads.  After an item
    that was not skipped, loading the state file gives back the dictionary
    of the loop exactly: its processed ids are the processed ids in memory,
    with the item among them, so that a later run skips the item, and its
    watermark is the formatted watermark candidate when there is one. *)
Theorem saved_item_is_found_processed (ym : Client) (track : liked_track)
    (ls ls' : LoopState) (w : World) :
  well_formed_state (ls_state ls) = true ->
  lt_id track ∉ ls_processed_ids ls ->
  fst (reconcile ym track ls w) = Ok ls' ->
  load_state (snd (reconcile ym track ls w))
  = (Ok (ls_state ls'), snd (reconcile ym track ls w))
  /\ well_formed_state (ls_state ls') = true
  /\ processed_ids_of (ls_state ls') = ls_processed_ids ls'
  /\ lt_id track ∈ processed_ids_of (ls_state ls')
  /\ (forall s,
        format_spotify_ts (ls_max_added_dt ls') = Some s ->
        watermark_of (ls_state ls') = Returns (Some s))
  /\ (forall ym' ls0 w0,
        ls_processed_ids ls0 = processed_ids_of (ls_state ls') ->
        exists ls1,
          reconcile ym' track ls0 w0 = (Ok ls1, w0)
          /\ ls_skipped ls1 = S (ls_skipped ls0)).
Proof.
  intros Hwf Hnew Hrun.
  destruct (reconcile_ok_titled _ _ _ _ _ Hrun) as (title & Htitle).
  destruct (reconcile_inv ym track ls w)
    as [(e & _ & Heq)
       | [(Hin & _)
         | (_ & evs & _ & _ & [(e & evl & Heq & _)
             | (likes' & added' & nf' & evl & Heq & _)])]];
    [rewrite Heq in Hrun; discriminate Hrun | contradiction
    | rewrite Heq in Hrun; discriminate Hrun |].
  rewrite Heq in Hrun |- *. rewrite record_processed_eq in Hrun |- *.
  cbn [fst snd] in Hrun |- *. injection Hrun as <-.
  cbn [ls_state ls_processed_ids ls_max_added_dt].
  match goal with
  | |- context [state_to_save ?id ?l] =>
      destruct (state_to_save_well_formed id l Hwf) as (Hwf' & Hids);
      destruct (state_to_save_spec id l) as (_ & Hlast & _)
  end.
  cbn [ls_processed_ids ls_max_added_dt] in Hids, Hlast.
  split.
  { match goal with
    | |- load_state (mk_world (FileJson (JObj ?st)) ?tr) = _ =>
        exact (load_after_save st (mk_world (FileJson (JObj st)) tr) Hwf')
    end. }
  split; [exact Hwf'|]. split; [exact Hids|].
  split; [rewrite Hids; apply elem_of_union_l; now apply elem_of_singleton|].
  split.
  - intros s Hs. unfold watermark_of. rewrite Hlast, Hs. reflexivity.
  - intros ym' ls0 w0 Hls0. rewrite reconcile_processed.
    + rewrite Htitle. eexists. split; reflexivity.
    + rewrite Hls0, Hids. apply elem_of_union_l. now apply elem_of_singleton.
Qed.

(** ** The whole run *)

Lemma fetch_spotify_liked_tracks_world (fuel : nat) (sp : Spotify)
    (last_added_at : option string) (page_limit : nat) (w : World) :
  exists evs,
    snd (fetch_spotify_liked_tracks fuel sp last_added_at page_limit w)
    = mk_world (w_file w) (evs ++ w_trace w)
    /\ Forall (page_event page_limit) evs.
Proof.
  unfold fetch_spotify_liked_tracks, bind.
  destruct (fetch_pages_effects sp (parse_spotify_ts last_added_at) page_limit
              fuel 0 [] w) as (evs & Hworld & Hevs & _).
  exists evs. split; [|exact Hevs].
  destruct (fetch_pages fuel sp _ page_limit 0 [] w) as [[l|e|] w1];
    cbn [fst snd] in *; exact Hworld.
Qed.

(** X11. Whatever the environment and the two services answer, and however
    the run ends, a run only adds calls to the history, and it leaves the
    state file as it found it unless it has issued a search: no failure of
    the configuration, of the state file, of the like listing or of the
    source listing costs the saved state.  A run that finds nothing new has
    only listed the likes and requested pages. *)
Theorem state_file_changes_only_after_search (fuel : nat) (env : Env) (w : World) :
  exists evs,
    w_trace (snd (main fuel env w)) = evs ++ w_trace w
    /\ (w_file (snd (main fuel env w)) = w_file w
        \/ exists query, In (EvSearch query) evs)
    /\ (fst (main fuel env w) = Ok None ->
        w_file (snd (main fuel env w)) = w_file w
        /\ Forall (fun ev => ev = EvLikesTracks \/ page_event 50 ev) evs).
Proof.
  destruct (main fuel env w) as [res wf] eqn:Hmain. cbn [fst snd].
  unfold main in Hmain. unfold bind at 1 in Hmain.
  pose proof (init_spotify_client_world env w) as Hw1.
  destruct (init_spotify_client env w) as [[sp|e|] w1]; cbn [snd] in Hw1; subst w1;
    try (injection Hmain as <- <-; exists []; split; [reflexivity|];
         split; [now left | discriminate]).
  unfold bind at 1 in Hmain.
  pose proof (init_yandex_client_world env w) as Hw2.
  destruct (init_yandex_client env w) as [[ym|e|] w2]; cbn [snd] in Hw2; subst w2;
    try (injection Hmain as <- <-; exists []; split; [reflexivity|];
         split; [now left | discriminate]).
  unfold bind at 1 in Hmain.
  pose proof (load_state_world w) as Hw3.
  destruct (load_state w) as [[state|e|] w3]; cbn [snd] in Hw3; subst w3;
    try (injection Hmain as <- <-; exists []; split; [reflexivity|];
         split; [now left | discriminate]).
  unfold bind at 1 in Hmain.
  destruct (fetch_yandex_liked_ids_ok ym w) as (likes & Hlikes).
  rewrite Hlikes in Hmain. unfold bind at 1, pure in Hmain.
  destruct (watermark_of state) as [last|e]; cbn [result_of] in Hmain.
  2:{ injection Hmain as <- <-. exists [EvLikesTracks]. cbn [w_file w_trace].
      split; [reflexivity|]. split; [now left | discriminate]. }
  unfold bind at 1 in Hmain.
  destruct (fetch_spotify_liked_tracks_world fuel sp last 50
              (mk_world (w_file w) (EvLikesTracks :: w_trace w)))
    as (evsF & HworldF & HevsF).
  cbn [w_file w_trace] in HworldF.
  assert (Hpages :
    Forall (fun ev => ev = EvLikesTracks \/ page_event 50 ev) (evsF ++ [EvLikesTracks])).
  { apply Forall_app. split.
    - eapply Forall_impl; [exact HevsF|]. intros ev Hev. now right.
    - repeat constructor. }
  destruct (fetch_spotify_liked_tracks fuel sp last 50 _) as [[tracks|e|] w4];
    cbn [snd] in HworldF; subst w4.
  2,3: injection Hmain as <- <-; exists (evsF ++ [EvLikesTracks]);
       cbn [w_file w_trace];
       (split; [now rewrite <- app_assoc|]); (split; [now left | discriminate]).
  destruct tracks as [|track rest].
  { injection Hmain as <- <-. exists (evsF ++ [EvLikesTracks]). cbn [w_file w_trace].
    split; [now rewrite <- app_assoc|]. split; [now left|].
    intros _. split; [reflexivity | exact Hpages]. }
  unfold bind in Hmain.
  match type of Hmain with
  | context [reconcile_all ym ?ts ?ls0 ?w0] =>
      destruct (reconcile_all_effects ym ts ls0 w0)
        as (evsL & Htrace & _ & Hfile & _);
      destruct (reconcile_all ym ts ls0 w0) as [[ls1|e|] w5]
  end;
    cbn [fst snd ret w_file w_trace] in *;
    injection Hmain as <- <-;
    exists (evsL ++ evsF ++ [EvLikesTracks]);
    (split; [rewrite Htrace, <- !app_assoc; reflexivity|]);
    (split; [|discriminate]);
    (destruct Hfile as [-> | (q & Hq)];
     [now left | right; exists q; apply in_or_app; now left]).
Qed.

(** X12. A failure to set up either client ends the run at once: a missing
    or empty client id, client secret or token raises the configuration
    error, and an exception of either constructor is passed on as it is.
    No call to either service has been made by then, the state file is as
    it was, and the process exits with status 1. *)
Theorem client_setup_failure_aborts (fuel : nat) (env : Env) (w : World) (e : exn) :
  (e = RuntimeError
   /\ (nonempty (SPOTIFY_CLIENT_ID env) = None
       \/ nonempty (SPOTIFY_CLIENT_SECRET env) = None))
  \/ (nonempty (SPOTIFY_CLIENT_ID env) <> None
      /\ nonempty (SPOTIFY_CLIENT_SECRET env) <> None
      /\ (SpotifyOAuth env = Raises e
          \/ ((exists sp, SpotifyOAuth env = Returns sp)
              /\ ((e = RuntimeError /\ nonempty (YANDEX_MUSIC_TOKEN env) = None)
                  \/ (nonempty (YANDEX_MUSIC_TOKEN env) <> None
                      /\ Client_init env = Raises e))))) ->
  main fuel env w = (Raise e, w) /\ script fuel env w = (Some 1%Z, w).
Proof.
  intros H.
  assert (Hmain : main fuel env w = (Raise e, w)).
  { unfold main. unfold bind at 1. unfold init_spotify_client.
    destruct H as [(-> & Hmissing) | (Hid & Hsecret & H)].
    - destruct Hmissing as [-> | Hsecret]; [reflexivity|].
      rewrite Hsecret. now destruct (nonempty (SPOTIFY_CLIENT_ID env)).
    - destruct (nonempty (SPOTIFY_CLIENT_ID env)); [|contradiction].
      destruct (nonempty (SPOTIFY_CLIENT_SECRET env)); [|contradiction].
      unfold pure.
      destruct H as [-> | ((sp & ->) & H)]; [reflexivity|]. cbn [result_of].
      unfold bind at 1. unfold init_yandex_client.
      destruct H as [(-> & ->) | (Htoken & Hinit)]; [reflexivity|].
      destruct (nonempty (YANDEX_MUSIC_TOKEN env)); [|contradiction].
      unfold pure. now rewrite Hinit. }
  split; [exact Hmain|]. unfold script. now rewrite Hmain.
Qed.

(** X13. A watermark in the state file that is not a string and is truthy
    (a number other than zero, [true], a list or an object with entries)
    ends every run with an attribute error: the state loads, the likes are
    listed, and the run stops before the first page request, with the state
    file as it was and exit status 1. *)
Theorem non_string_watermark_aborts (fuel : nat) (env : Env) (sp : Spotify)
    (ym : Client) (data : dict) (v : json) (w : World) :
  init_spotify_client env w = (Ok sp, w) ->
  init_yandex_client env w = (Ok ym, w) ->
  w_file w = FileJson (JObj data) ->
  dict_get data "last_spotify_added_at" = Some v ->
  is_JStr v = false ->
  truthy v = true ->
  main fuel env w
  = (Raise AttributeError, mk_world (w_file w) (EvLikesTracks :: w_trace w))
  /\ script fuel env w
     = (Some 1%Z, mk_world (w_file w) (EvLikesTracks :: w_trace w)).
Proof.
  intros Hsp Hym Hfile Hget Hstr Htruthy.
  assert (Hmain :
    main fuel env w
    = (Raise AttributeError, mk_world (w_file w) (EvLikesTracks :: w_trace w))).
  { unfold main. unfold bind at 1. rewrite Hsp. unfold bind at 1. rewrite Hym.
    unfold bind at 1.
    destruct (load_state_repairs data (w_trace w))
      as (state & Hload & _ & Hlast & _).
    rewrite <- Hfile in Hload.
    replace (mk_world (w_file w) (w_trace w)) with w in Hload by now destruct w.
    rewrite Hload. unfold bind at 1.
    destruct (fetch_yandex_liked_ids_ok ym w) as (likes & ->).
    unfold bind at 1, pure, watermark_of. rewrite Hlast, Hget. cbn [default from_option id].
    destruct v; try discriminate Hstr; rewrite Htruthy; reflexivity. }
  split; [exact Hmain|]. unfold script. now rewrite Hmain.
Qed.

(** ** Liking *)

(** X14. Liking a candidate never raises and never touches the state file.
    It answers [True] exactly when the candidate has a like key and the key
    is in the set of likes afterwards; when it answers [False] the set is
    as it was.  A candidate without a track id, without albums or without
    an album id has no key: it is answered [False] without any call.  A key
    is the track id and the id of the first album, both non-empty, joined
    by a colon. *)
Theorem like_reports_membership (ym : Client) (ya : ya_track)
    (likes : gset string) (w : World) :
  exists success likes' evs,
    like_yandex_track ym ya likes w
    = (Ok (success, likes'), mk_world (w_file w) (evs ++ w_trace w))
    /\ Forall (like_event likes) evs
    /\ (success = true
        <-> exists like_id, build_yandex_like_id ya = Some like_id /\ like_id ∈ likes')
    /\ (success = false -> likes' = likes)
    /\ (build_yandex_like_id ya = None -> evs = [])
    /\ (forall like_id,
          build_yandex_like_id ya = Some like_id ->
          exists track_id album rest album_id,
            ya_track_id ya = Some track_id /\ track_id <> ""
            /\ ya_albums ya = Some (album :: rest)
            /\ ya_album_id album = Some album_id /\ album_id <> ""
            /\ like_id = track_id +:+ ":" +:+ album_id).
Proof.
  destruct (like_yandex_track_effects ym ya likes w)
    as (success & likes' & evs & Hrun & Hevs & Hsub & Hnew & Hnone & Hsome).
  exists success, likes', evs. split; [exact Hrun|]. split; [exact Hevs|].
  split; [|split; [|split]].
  - split; [exact Hsome|]. intros (like_id & Hbuild & Hin).
    destruct (decide (like_id ∈ likes)) as [Hold|Hold].
    + unfold like_yandex_track in Hrun. rewrite Hbuild in Hrun.
      rewrite (bool_decide_eq_true_2 _ Hold) in Hrun. unfold ret in Hrun.
      congruence.
    + now destruct (Hnew like_id Hin Hold) as (_ & -> & _).
  - intros ->. apply leibniz_equiv. intros k. split; [|apply Hsub].
    intros Hk. destruct (decide (k ∈ likes)) as [Hold|Hold]; [exact Hold|].
    destruct (Hnew k Hk Hold) as (_ & Habs & _). discriminate Habs.
  - intros Hbuild. now destruct (Hnone Hbuild).
  - intros like_id. unfold build_yandex_like_id.
    destruct (ya_track_id ya) as [[|c track_id]|]; cbn [nonempty]; try discriminate.
    destruct (ya_albums ya) as [[|album rest]|]; try discriminate.
    destruct (ya_album_id album) as [[|c' album_id]|] eqn:Halbum; cbn [nonempty];
      try discriminate.
    intros [= <-]. exists (String c track_id), album, rest, (String c' album_id).
    repeat split; try reflexivity; try exact Halbum; intros Habs; discriminate Habs.
Qed.

(** ** The state file at the end of a run *)

Lemma reconcile_all_file (ym : Client) (tracks : list liked_track) :
  forall (ls ls' : LoopState) (w w' : World),
    reconcile_all ym tracks ls w = (Ok ls', w') ->
    ls_skipped ls' <= length tracks + ls_skipped ls
    /\ (ls_skipped ls' = length tracks + ls_skipped ls ->
        w' = w /\ ls_state ls' = ls_state ls)
    /\ (ls_skipped ls' < length tracks + ls_skipped ls ->
        w_file w' = FileJson (JObj (ls_state ls')))
    /\ (w_file w = FileJson (JObj (ls_state ls)) ->
        w_file w' = FileJson (JObj (ls_state ls'))).
Proof.
  induction tracks as [|track rest IH]; intros ls ls' w w'; cbn [reconcile_all].
  - unfold ret. intros [= <- <-]. cbn [length]. repeat split; try lia; auto.
  - unfold bind.
    destruct (reconcile_inv ym track ls w)
      as [(e & _ & ->)
         | [(_ & ->)
           | (_ & evs & _ & _ & [(e & evl & -> & _)
               | (likes' & added' & nf' & evl & -> & _)])]];
      [discriminate | | discriminate |].
    + intros Hrest. apply IH in Hrest as (Hle & Heq & Hlt & Hfile).
      cbn [ls_skipped ls_state length] in *.
      split; [lia|]. split; [intros H; apply Heq; lia|].
      split; [intros H; apply Hlt; lia | exact Hfile].
    + rewrite record_processed_eq. intros Hrest.
      apply IH in Hrest as (Hle & _ & _ & Hfile).
      cbn [ls_skipped ls_state length w_file] in *.
      split; [lia|]. split; [lia|].
      split; [intros _; now apply Hfile | intros _; now apply Hfile].
Qed.

(** X15. A run that ends with a summary had at least one new item, and the
    number of skipped items is at most the number of new items.  When all
    of them were skipped, the state file is as the run found it; otherwise
    the state file holds exactly the state dictionary the run ended with,
    whose processed ids are the processed ids in memory. *)
Theorem state_file_at_end_of_run (fuel : nat) (env : Env) (w w' : World)
    (summary : Summary) (ls' : LoopState) :
  main fuel env w = (Ok (Some (summary, ls')), w') ->
  0 < sum_total summary
  /\ sum_skipped summary <= sum_total summary
  /\ (sum_skipped summary = sum_total summary -> w_file w' = w_file w)
  /\ (sum_skipped summary < sum_total summary ->
      w_file w' = FileJson (JObj (ls_state ls'))).
Proof.
  intros Hmain.
  destruct (main_inv fuel env w w' summary ls' Hmain)
    as (sp & ym & state & likes & last & tracks & w1 & _ & _ & _ & _ & _
        & Hfetch & Hne & Hloop & ->).
  destruct (fetch_spotify_liked_tracks_world fuel sp last 50
              (mk_world (w_file w) (EvLikesTracks :: w_trace w)))
    as (evsF & HworldF & _).
  rewrite Hfetch in HworldF. cbn [snd w_file] in HworldF.
  apply reconcile_all_file in Hloop as (Hle & Heq & Hlt & _).
  cbn [ls_skipped sum_total sum_skipped] in *.
  split; [destruct tracks; [contradiction | cbn [length]; lia]|].
  split; [lia|]. split.
  - intros H. destruct Heq as [-> _]; [lia|]. now rewrite HworldF.
  - intros H. apply Hlt. lia.
Qed.

(** ** From one run to the next *)

Lemma load_state_same_file (w1 w2 : World) :
  w_file w1 = w_file w2 -> fst (load_state w1) = fst (load_state w2).
Proof.
  unfold load_state. intros ->. destruct (w_file w2) as [| |v]; try reflexivity.
  now destruct v.
Qed.

Lemma load_saved_state (state : dict) (w : World) :
  well_formed_state state = true ->
  w_file w = FileJson (JObj state) ->
  load_state w = (Ok state, w).
Proof.
  intros Hwf Hfile. pose proof (load_after_save state w Hwf) as Hload.
  unfold save_state in Hload. cbn [snd] in Hload. rewrite <- Hfile in Hload.
  now destruct w.
Qed.

Lemma reconcile_all_state (ym : Client) (tracks : list liked_track) :
  forall (ls ls' : LoopState) (w w' : World),
    reconcile_all ym tracks ls w = (Ok ls', w') ->
    well_formed_state (ls_state ls) = true ->
    processed_ids_of (ls_state ls) = ls_processed_ids ls ->
    well_formed_state (ls_state ls') = true
    /\ processed_ids_of (ls_state ls') = ls_processed_ids ls'.
Proof.
  induction tracks as [|track rest IH]; intros ls ls' w w'; cbn [reconcile_all].
  - unfold ret. intros [= <- <-]. auto.
  - unfold bind.
    destruct (reconcile_inv ym track ls w)
      as [(e & _ & ->)
         | [(_ & ->)
           | (_ & evs & _ & _ & [(e & evl & -> & _)
               | (likes' & added' & nf' & evl & -> & _)])]];
      [discriminate | | discriminate |].
    + intros Hrest Hwf Hids. apply (IH _ _ _ _ Hrest); assumption.
    + rewrite record_processed_eq. intros Hrest Hwf Hids.
      apply (IH _ _ _ _ Hrest); cbn [ls_state ls_processed_ids];
        match goal with
        | |- context [state_to_save ?id ?l] =>
            destruct (state_to_save_well_formed id l Hwf) as (Hwf' & Hids')
        end; assumption.
Qed.

(** X16. A run that ends with a summary leaves behind what the next run
    starts from: loading the state file after the run gives the state
    dictionary the run ended with, whether the run saved it or skipped every
    item, and its processed ids are the ids the run loaded together with the
    ids of all the new items of the run.  The next run therefore skips every
    item of this run that it is given again. *)
Theorem next_run_knows_every_item (fuel : nat) (env : Env) (w w' : World)
    (summary : Summary) (ls' : LoopState) :
  main fuel env w = (Ok (Some (summary, ls')), w') ->
  load_state w' = (Ok (ls_state ls'), w')
  /\ processed_ids_of (ls_state ls') = ls_processed_ids ls'
  /\ exists sp state last tracks w1,
       init_spotify_client env w = (Ok sp, w)
       /\ load_state w = (Ok state, w)
       /\ watermark_of state = Returns last
       /\ fetch_spotify_liked_tracks fuel sp last 50
            (mk_world (w_file w) (EvLikesTracks :: w_trace w))
          = (Ok tracks, w1)
       /\ length tracks = sum_total summary
       /\ processed_ids_of (ls_state ls')
          = list_to_set (map lt_id tracks) ∪ processed_ids_of state
       /\ forall ym' track ls0 w0,
            In track tracks ->
            ls_processed_ids ls0 = processed_ids_of (ls_state ls') ->
            exists ls1,
              reconcile ym' track ls0 w0 = (Ok ls1, w0)
              /\ ls_skipped ls1 = S (ls_skipped ls0).
Proof.
  intros Hmain.
  destruct (main_inv fuel env w w' summary ls' Hmain)
    as (sp & ym & state & likes & last & tracks & w1 & Hsp & _ & Hload & _ & Hlast
        & Hfetch & _ & Hloop & ->).
  assert (Hwf : well_formed_state state = true)
    by (apply (load_state_well_formed w); now rewrite Hload).
  destruct (reconcile_all_state ym tracks _ _ _ _ Hloop Hwf eq_refl)
    as (Hwf' & Hids').
  pose proof (reconcile_all_processed_ids ym tracks _ ls' w1
                ltac:(rewrite Hloop; reflexivity)) as Hall.
  cbn [ls_processed_ids] in Hall.
  destruct (fetch_spotify_liked_tracks_world fuel sp last 50
              (mk_world (w_file w) (EvLikesTracks :: w_trace w)))
    as (evsF & HworldF & _).
  rewrite Hfetch in HworldF. cbn [snd w_file] in HworldF.
  pose proof (reconcile_all_file ym tracks _ _ _ _ Hloop)
    as (Hle & Heq & Hlt & _).
  cbn [ls_skipped ls_state] in Hle, Heq, Hlt.
  split; [|split; [exact Hids'|]].
  - destruct (Nat.eq_dec (ls_skipped ls') (length tracks + 0)) as [Hall_skipped|Hsome].
    + destruct (Heq Hall_skipped) as [Hw Hst]. subst w'. rewrite Hst.
      assert (Hsame : fst (load_state w1) = fst (load_state w))
        by (apply load_state_same_file; rewrite HworldF; reflexivity).
      rewrite Hload in Hsame. cbn [fst] in Hsame.
      pose proof (load_state_world w1) as Hworld.
      destruct (load_state w1) as [res w2]. cbn [fst snd] in Hsame, Hworld.
      now subst res w2.
    + apply load_saved_state; [exact Hwf'|]. apply Hlt. lia.
  - exists sp, state, last, tracks, w1.
    split; [exact Hsp|]. split; [exact Hload|]. split; [exact Hlast|].
    split; [exact Hfetch|]. split; [reflexivity|].
    split; [now rewrite Hids', Hall|].
    intros ym' track ls0 w0 Hin Hls0. rewrite reconcile_processed.
    + pose proof (reconcile_all_ok_titled ym tracks _ ls' w1
                    ltac:(rewrite Hloop; reflexivity)) as Htitled.
      rewrite Forall_forall in Htitled. apply list_elem_of_In in Hin.
      destruct (Htitled _ Hin) as (title & ->). eexists. split; reflexivity.
    + rewrite Hls0, Hids', Hall. apply elem_of_union_l.
      apply elem_of_list_to_set. apply list_elem_of_In. now apply in_map.
Qed.

(** ** Items and candidates that cannot be printed *)

Lemma strings_None (parts : list (option string)) :
  In None parts <-> strings parts = None.
Proof.
  induction parts as [|[p|] rest IH]; cbn [strings In].
  - split; [intros [] | discriminate].
  - destruct (strings rest) as [l|] eqn:Hrest.
    + split; [intros [H|H]; [discriminate H | now apply IH in H] | discriminate].
    + split; [reflexivity | intros _; right; now apply IH].
  - split; [reflexivity | intros _; now left].
Qed.

(** X17. An item one of whose artists has the name [None] ends the run when
    the loop reaches it: building its title raises [TypeError] before the
    watermark candidate is updated, before the test for processed ids and
    before any call, so that the world is as the items before it left it,
    and no later item is reconciled.  The matcher, which builds the same
    title as its query, raises as well.  An item whose artists all have
    names has a title. *)
Theorem nameless_artist_aborts_iteration (ym : Client) (track : liked_track)
    (ls : LoopState) (w : World) :
  (In None (lt_artists track) ->
   human_title track = Raises TypeError
   /\ reconcile ym track ls w = (Raise TypeError, w)
   /\ find_best_yandex_match ym track w = (Raise TypeError, w)
   /\ forall rest, reconcile_all ym (track :: rest) ls w = (Raise TypeError, w))
  /\ (~ In None (lt_artists track) ->
      exists names,
        lt_artists track = map Some names
        /\ human_title track
           = Returns (join ", " names +:+ " — " +:+ py_format (lt_name track))).
Proof.
  split.
  - intros Hnone. apply strings_None in Hnone.
    assert (Htitle : human_title track = Raises TypeError)
      by (unfold human_title, title_line, py_join; now rewrite Hnone).
    assert (Hstep : reconcile ym track ls w = (Raise TypeError, w))
      by (unfold reconcile; unfold bind at 1, pure; now rewrite Htitle).
    split; [exact Htitle|]. split; [exact Hstep|]. split.
    + unfold find_best_yandex_match. unfold bind at 1, pure.
      unfold search_query. unfold human_title in Htitle. now rewrite Htitle.
    + intros rest. cbn [reconcile_all]. unfold bind. now rewrite Hstep.
  - intros Hall. unfold human_title, title_line, py_join.
    assert (Hnames : exists names,
      lt_artists track = map Some names /\ strings (lt_artists track) = Some names).
    { clear -Hall. induction (lt_artists track) as [|[p|] rest IH].
      - now exists [].
      - destruct IH as (names & -> & Hrest); [intros H; apply Hall; now right|].
        exists (p :: names). cbn [strings map]. now rewrite Hrest.
      - exfalso. apply Hall. now left. }
    destruct Hnames as (names & Heq & ->). now exists names.
Qed.

(** X18. A track of the listing whose [artists] is null ends the fetch when
    it is reached in front of the item that stops the paging: the
    comprehension over its artists raises [TypeError], which leaves
    [fetch_spotify_liked_tracks]; by then only pages up to the one that
    holds the track have been requested, and the state file is as it
    was. *)
Theorem null_artists_abort_fetch (library : list sp_item)
    (last_added_at : option string) (page_limit fuel : nat) (w : World)
    (items rest : list sp_item) (item : sp_item) (track : sp_track) (id : string) :
  0 < page_limit ->
  length library < fuel ->
  before_stop (parse_spotify_ts last_added_at) library = items ++ item :: rest ->
  forallb well_shaped items = true ->
  item_track item = Some track ->
  nonempty (track_id track) = Some id ->
  track_artists track = Null ->
  exists evs,
    fetch_spotify_liked_tracks fuel (listing library) last_added_at page_limit w
    = (Raise TypeError, mk_world (w_file w) (evs ++ w_trace w))
    /\ Forall (page_request page_limit
                 (length (before_stop (parse_spotify_ts last_added_at) library)))
         evs.
Proof.
  intros Hlimit Hfuel Hsplit Hshaped Htrack Hid Hnull.
  destruct (fetch_pages_listing (parse_spotify_ts last_added_at) page_limit fuel
              Hlimit [] library [] w) as (evs & Hrun & Hevs);
    [exact Hfuel | reflexivity |].
  exists evs. split; [|exact Hevs].
  unfold fetch_spotify_liked_tracks, bind. cbn [app length] in Hrun. rewrite Hrun.
  rewrite Hsplit, collect_app, (collect_kept _ Hshaped). cbn [collect].
  unfold built. rewrite Htrack, Hid. unfold make_liked_track. rewrite Hnull.
  reflexivity.
Qed.

End Sync.

(** * Sample runs *)

(** The first scenario of the specification: an empty state, two liked
    items, a candidate for the first only. *)
Example scenario_first_import :
  let ym :=
    mk_Client (fun _ => Returns (Some []))
      (fun _ query =>
         if String.eqb query "Artist — A"
         then search_finds [sample_candidate "1" "10"]
         else search_finds [])
      (fun _ _ => Returns tt) in
  let env :=
    sample_env [sample_item "b" "B" "2025-01-02T00:00:00Z";
                sample_item "a" "A" "2025-01-01T00:00:00Z"] ym in
  let run := main strict_fromisoformat blank_str 3 env (mk_world FileAbsent []) in
  summary_after run = Some (mk_summary 2 1 0 1)
  /\ file_after run = state_file ["a"; "b"] "2025-01-02T00:00:00Z"
  /\ w_trace (snd run)
     = [EvSearch "Artist — B"; EvLikesAdd "1:10"; EvSearch "Artist — A";
        EvSavedTracks 50 0; EvLikesTracks].
Proof. vm_compute. repeat split. Qed.




(** C3, on a key that enters the snapshot during the run: two items match
    the same candidate, and the run issues one add-like call and counts both
    as added. *)
Example second_like_of_a_key_is_suppressed :
  let env :=
    sample_env [sample_item "b" "B" "2025-01-02T00:00:00Z";
                sample_item "a" "A" "2025-01-01T00:00:00Z"] sample_client in
  let run := main strict_fromisoformat blank_str 3 env (mk_world FileAbsent []) in
  summary_after run = Some (mk_summary 2 2 0 0)
  /\ w_trace (snd run)
     = [EvSearch "Artist — B"; EvLikesAdd "1:10"; EvSearch "Artist — A";
        EvSavedTracks 50 0; EvLikesTracks]
  /\ file_after run = state_file ["a"; "b"] "2025-01-02T00:00:00Z".
Proof. vm_compute. repeat split. Qed.

(** C8, on a target catalog whose like listing fails: the snapshot is
    empty and the run is the run of the catalog that lists no likes. *)
Lemma target_snapshot_witness :
  let ym := with_likes_answer sample_client (Raises (OtherError "NetworkError")) in
  let env := sample_env [sample_item "a" "A" "2025-01-01T00:00:00Z"] ym in
  let w := mk_world FileAbsent [] in
  main strict_fromisoformat blank_str 2 env w
  = main strict_fromisoformat blank_str 2
      (with_client env (with_likes_answer ym (Returns (Some [])))) w
  /\ summary_after (main strict_fromisoformat blank_str 2 env w)
     = Some (mk_summary 1 1 0 0).
Proof.
  intros ym env w. split; [|vm_compute; reflexivity].
  apply (proj2 (target_snapshot_best_effort strict_fromisoformat blank_str ym w)
           2 env (OtherError "NetworkError")); reflexivity.
Defined.



(** C9 as amended, on an item without [added_at] in front of the listing:
    it is returned by the detector in every run; once processed it is
    skipped, and the run leaves the state file as it was. *)
Example rerun_with_undated_item :
  let undated :=
    mk_sp_item
      (Some (mk_sp_track (Some "x") (Present "X")
               (Present [Some (mk_sp_artist (Present "Artist"))]) None Missing))
      None in
  let env :=
    sample_env [undated; sample_item "a" "A" "2025-01-01T00:00:00Z"] sample_client in
  let w := mk_world (state_file ["a"; "x"] "2025-01-01T00:00:00Z") [] in
  let run := main strict_fromisoformat blank_str 3 env w in
  summary_after run = Some (mk_summary 1 0 1 0)
  /\ file_after run = state_file ["a"; "x"] "2025-01-01T00:00:00Z"
  /\ w_trace (snd run) = [EvSavedTracks 50 0; EvLikesTracks].
Proof. vm_compute. repeat split. Qed.

(** C10, on the timestamp of the script's own comments. *)
Lemma format_parse_witness :
  format_spotify_ts
    (parse_spotify_ts strict_fromisoformat (Some "2025-12-02T10:33:56Z"))
  = Some "2025-12-02T10:33:56Z".
Proof.
  apply (format_parse_roundtrip strict_fromisoformat blank_str
           "2025-12-02T10:33:56Z").
  reflexivity.
Defined.

(** * Sample runs for the further properties *)

(** X1, on the timestamp of the script's own comments, in UTC and with
    microseconds. *)
Lemma parse_format_roundtrip_witness :
  exists s,
    format_spotify_ts (Some (mk_datetime 2025 12 2 10 33 56 123456)) = Some s
    /\ is_spotify_ts s = true
    /\ parse_spotify_ts strict_fromisoformat (Some s)
       = Some (mk_datetime 2025 12 2 10 33 56 0).
Proof.
  apply (parse_format_roundtrip strict_fromisoformat
           (mk_datetime 2025 12 2 10 33 56 123456)).
  reflexivity.
Defined.

(** X4: the state the first scenario leaves behind is loaded back as
    saved. *)
Lemma save_load_roundtrip_witness :
  let state :=
    [("processed_spotify_ids", JArr [JStr "a"; JStr "b"]);
     ("last_spotify_added_at", JStr "2025-01-02T00:00:00Z")] in
  let w := mk_world FileAbsent [] in
  load_state blank_str (snd (save_state state w))
  = (Ok state, snd (save_state state w)).
Proof.
  intros state w.
  apply (proj1 (save_load_roundtrip blank_str state w eq_refl)).
Defined.

(** X5, on two new items, the first of them without a candidate: both ids
    are processed at the end of the loop. *)
Lemma processed_ids_after_loop_witness :
  let ym :=
    mk_Client (fun _ => Returns (Some []))
      (fun _ query =>
         if String.eqb query "Artist — A" then search_finds []
         else search_finds [sample_candidate "1" "10"])
      (fun _ _ => Returns tt) in
  let tracks :=
    [mk_liked_track "a" (Some "A") [Some "Artist"] (Some "Album") (Some 1000%Z)
       (Some "2025-01-01T00:00:00Z");
     mk_liked_track "b" (Some "B") [Some "Artist"] (Some "Album") (Some 1000%Z)
       (Some "2025-01-02T00:00:00Z")] in
  let ls := mk_loop ∅ STATE_DEFAULT ∅ None 0 0 0 in
  exists ls',
    fst (reconcile_all strict_fromisoformat ym tracks ls (mk_world FileAbsent []))
    = Ok ls'
    /\ ls_processed_ids ls' = list_to_set ["a"; "b"] ∪ ∅.
Proof.
  intros ym tracks ls.
  destruct (fst (reconcile_all strict_fromisoformat ym tracks ls
                   (mk_world FileAbsent []))) as [ls'|e|] eqn:Hrun;
    [| vm_compute in Hrun; discriminate Hrun | vm_compute in Hrun; discriminate Hrun].
  exists ls'. split; [reflexivity|].
  exact (processed_ids_after_loop strict_fromisoformat ym tracks ls ls'
           (mk_world FileAbsent []) Hrun).
Defined.

(** X6, on two items of which one is liked and one fails to be liked: the
    counters stay within the number of items. *)
Lemma counters_after_loop_witness :
  let ym :=
    mk_Client (fun _ => Returns (Some []))
      (fun _ query =>
         if String.eqb query "Artist — A"
         then search_finds [sample_candidate "1" "10"]
         else search_finds [sample_candidate "2" "20"])
      (fun _ like_id =>
         if String.eqb like_id "1:10" then Returns tt
         else Raises (OtherError "BadRequest")) in
  let tracks :=
    [mk_liked_track "a" (Some "A") [Some "Artist"] (Some "Album") (Some 1000%Z)
       (Some "2025-01-01T00:00:00Z");
     mk_liked_track "b" (Some "B") [Some "Artist"] (Some "Album") (Some 1000%Z)
       (Some "2025-01-02T00:00:00Z")] in
  let ls := mk_loop ∅ STATE_DEFAULT ∅ None 0 0 0 in
  exists ls',
    fst (reconcile_all strict_fromisoformat ym tracks ls (mk_world FileAbsent []))
    = Ok ls'
    /\ ls_added ls' + ls_skipped ls' + ls_not_found ls' <= 2 + (0 + 0 + 0).
Proof.
  intros ym tracks ls.
  destruct (fst (reconcile_all strict_fromisoformat ym tracks ls
                   (mk_world FileAbsent []))) as [ls'|e|] eqn:Hrun;
    [| vm_compute in Hrun; discriminate Hrun | vm_compute in Hrun; discriminate Hrun].
  exists ls'. split; [reflexivity|].
  exact (proj2 (proj2 (proj2
           (counters_after_loop strict_fromisoformat ym tracks ls ls'
              (mk_world FileAbsent []) Hrun)))).
Defined.

(** X9, on a processed item that was liked again after the watermark: it
    is skipped, and the candidate is at or above its timestamp. *)
Lemma watermark_candidate_witness :
  let track :=
    mk_liked_track "b" (Some "B") [Some "Artist"] (Some "Album") (Some 1000%Z)
       (Some "2025-01-02T00:00:00Z") in
  let ls :=
    mk_loop {["b"]} STATE_DEFAULT ∅ (Some (mk_datetime 2025 1 1 0 0 0 0)) 0 0 0 in
  exists ls' m,
    fst (reconcile_all strict_fromisoformat sample_client [track] ls
           (mk_world FileAbsent []))
    = Ok ls'
    /\ ls_max_added_dt ls' = Some m
    /\ dt_leb (mk_datetime 2025 1 2 0 0 0 0) m = true.
Proof.
  intros track ls.
  destruct (fst (reconcile_all strict_fromisoformat sample_client [track] ls
                   (mk_world FileAbsent []))) as [ls'|e|] eqn:Hrun;
    [| vm_compute in Hrun; discriminate Hrun | vm_compute in Hrun; discriminate Hrun].
  destruct (watermark_candidate_is_maximum strict_fromisoformat sample_client
              [track] ls ls' (mk_world FileAbsent []) Hrun) as (_ & Hitems & _).
  destruct (Hitems track (mk_datetime 2025 1 2 0 0 0 0)) as (m & Hm & Hle);
    [now left | reflexivity |].
  exists ls', m. split; [reflexivity|]. split; [exact Hm | exact Hle].
Defined.

(** X10, on a new item that is liked: the state file is loaded back as the
    state of the loop, with the item among the processed ids. *)
Lemma saved_item_witness :
  let track :=
    mk_liked_track "a" (Some "A") [Some "Artist"] (Some "Album") (Some 1000%Z)
       (Some "2025-01-01T00:00:00Z") in
  let ls := mk_loop ∅ STATE_DEFAULT ∅ None 0 0 0 in
  let run :=
    reconcile strict_fromisoformat sample_client track ls (mk_world FileAbsent []) in
  exists ls',
    fst run = Ok ls'
    /\ load_state blank_str (snd run) = (Ok (ls_state ls'), snd run)
    /\ "a" ∈ processed_ids_of (ls_state ls').
Proof.
  intros track ls run.
  destruct (fst run) as [ls'|e|] eqn:Hrun;
    [| vm_compute in Hrun; discriminate Hrun | vm_compute in Hrun; discriminate Hrun].
  destruct (saved_item_is_found_processed strict_fromisoformat blank_str
              sample_client track ls ls' (mk_world FileAbsent []))
    as (Hload & _ & _ & Hin & _).
  - reflexivity.
  - subst ls. cbn [ls_processed_ids lt_id]. apply not_elem_of_empty.
  - exact Hrun.
  - exists ls'. split; [reflexivity|]. split; [exact Hload | exact Hin].
Defined.

(** X12, on an environment without the token of the target catalog. *)
Lemma client_setup_failure_witness :
  let env :=
    mk_Env (Some "client-id") (Some "client-secret") None
      (Returns (listing [])) (Returns sample_client) in
  let w := mk_world (state_file ["a"] "2025-01-01T00:00:00Z") [] in
  script strict_fromisoformat blank_str 3 env w = (Some 1%Z, w).
Proof.
  intros env w.
  destruct (client_setup_failure_aborts strict_fromisoformat blank_str 3 env w
              RuntimeError) as [_ Hscript]; [|exact Hscript].
  right. split; [discriminate|]. split; [discriminate|]. right.
  split; [now exists (listing [])|]. left. split; reflexivity.
Defined.

(** X13, on a state file whose watermark is the number 5. *)
Lemma non_string_watermark_witness :
  let env := sample_env [sample_item "a" "A" "2025-01-01T00:00:00Z"] sample_client in
  let data := [("processed_spotify_ids", JArr []); ("last_spotify_added_at", JInt 5)] in
  let w := mk_world (FileJson (JObj data)) [] in
  script strict_fromisoformat blank_str 3 env w
  = (Some 1%Z, mk_world (FileJson (JObj data)) [EvLikesTracks]).
Proof.
  intros env data w.
  destruct (non_string_watermark_aborts strict_fromisoformat blank_str 3 env
              (listing [sample_item "a" "A" "2025-01-01T00:00:00Z"])
              sample_client data (JInt 5) w) as [_ Hscript];
    [reflexivity .. | exact Hscript].
Defined.

(** X15, on the rerun with the undated item: all items are skipped and the
    state file is as the run found it. *)
Lemma state_file_at_end_witness :
  let undated :=
    mk_sp_item
      (Some (mk_sp_track (Some "x") (Present "X")
               (Present [Some (mk_sp_artist (Present "Artist"))]) None Missing))
      None in
  let env :=
    sample_env [undated; sample_item "a" "A" "2025-01-01T00:00:00Z"] sample_client in
  let w := mk_world (state_file ["a"; "x"] "2025-01-01T00:00:00Z") [] in
  let run := main strict_fromisoformat blank_str 3 env w in
  summary_after run = Some (mk_summary 1 0 1 0)
  /\ w_file (snd run) = w_file w.
Proof.
  intros undated env w run.
  assert (Hsummary : summary_after run = Some (mk_summary 1 0 1 0))
    by (vm_compute; reflexivity).
  split; [exact Hsummary|].
  unfold summary_after in Hsummary.
  destruct run as [[[[summary ls']|]|e|] w'] eqn:Hrun; cbn [fst snd] in *;
    try discriminate Hsummary.
  injection Hsummary as ->.
  apply (state_file_at_end_of_run strict_fromisoformat blank_str 3 env w w'
           (mk_summary 1 0 1 0) ls' Hrun).
  reflexivity.
Defined.

(** X16, on the first import of two items: the state file it leaves is
    loaded back as the state dictionary the run ended with. *)
Lemma next_run_witness :
  let env :=
    sample_env [sample_item "b" "B" "2025-01-02T00:00:00Z";
                sample_item "a" "A" "2025-01-01T00:00:00Z"] sample_client in
  exists summary ls' w',
    main strict_fromisoformat blank_str 3 env (mk_world FileAbsent [])
    = (Ok (Some (summary, ls')), w')
    /\ load_state blank_str w' = (Ok (ls_state ls'), w')
    /\ processed_ids_of (ls_state ls') = ls_processed_ids ls'.
Proof.
  intros env.
  destruct (main strict_fromisoformat blank_str 3 env (mk_world FileAbsent []))
    as [[[[summary ls']|]|e|] w'] eqn:Hrun;
    try (vm_compute in Hrun; discriminate Hrun).
  exists summary, ls', w'. split; [reflexivity|].
  destruct (next_run_knows_every_item strict_fromisoformat blank_str 3 env
              (mk_world FileAbsent []) w' summary ls' Hrun) as (Hload & Hids & _).
  split; [exact Hload | exact Hids].
Defined.

(** X17, on an item with two artists of which the second has no name. *)
Lemma nameless_artist_witness :
  let track :=
    mk_liked_track "a" (Some "A") [Some "Artist"; None] (Some "Album") (Some 1000%Z)
      (Some "2025-01-01T00:00:00Z") in
  let ls := mk_loop {["a"]} STATE_DEFAULT ∅ None 0 0 0 in
  let w := mk_world FileAbsent [] in
  reconcile strict_fromisoformat sample_client track ls w = (Raise TypeError, w).
Proof.
  intros track ls w.
  destruct (nameless_artist_aborts_iteration strict_fromisoformat sample_client
              track ls w) as [Hnameless _].
  destruct Hnameless as (_ & Hstep & _); [right; now left | exact Hstep].
Defined.

(** X18, on a listing whose first track has a null for its artists. *)
Lemma null_artists_witness :
  let broken :=
    mk_sp_item
      (Some (mk_sp_track (Some "x") (Present "X") Null None Missing))
      (Some "2025-01-02T00:00:00Z") in
  let library := [broken; sample_item "a" "A" "2025-01-01T00:00:00Z"] in
  let w := mk_world FileAbsent [] in
  exists evs,
    fetch_spotify_liked_tracks strict_fromisoformat 3 (listing library) None 50 w
    = (Raise TypeError, mk_world FileAbsent (evs ++ [])).
Proof.
  intros broken library w.
  destruct (null_artists_abort_fetch strict_fromisoformat library None 50 3 w
              [] [sample_item "a" "A" "2025-01-01T00:00:00Z"] broken
              (mk_sp_track (Some "x") (Present "X") Null None Missing) "x")
    as (evs & Hrun & _);
    [lia | cbn; lia | reflexivity | reflexivity | reflexivity | reflexivity
    | reflexivity |].
  now exists evs.
Defined.
